(** * Star PRNT command encoder ([src/languages/star-prnt.js])

    A shallow embedding of the class [LanguageStarPrnt] and the properties
    of its byte sequences.

    Conventions of the embedding.
    - A JavaScript number is an integer [Z]; the two places where the source
      divides ([on / 10], [height / 24]) are computed in [Q], so no rounding
      of the quotient is introduced.  Fractional, infinite and NaN arguments
      are outside the model.
    - A JavaScript array is a [list val]; a [Uint8Array] is a [list Z]
      written by index.
    - An object literal used as a table is a [gmap string val]; reading a
      property that the literal does not own continues in [Object.prototype].
    - [throw] is the [Throw] outcome of [completion]; the array under
      construction is local to the call and is lost with it.
    - [CodepageEncoder.encode] belongs to the package [codepage-encoder]; it
      is a parameter of the development.
    - The methods are embedded twice: as functions from arguments to the
      sequence returned, and, in [Heap], as computations on a heap of
      objects, where the arrays a method creates and changes are explicit.
      The second embedding is shown to compute the first. *)

From Stdlib Require Import ZArith QArith Qround String Ascii List Lia DecimalString.
From Stdlib Require DecimalZ DecimalPos.
From stdpp Require Import base option list gmap strings.
From Equations Require Import Equations.

Local Open Scope string_scope.
Local Open Scope list_scope.
Local Open Scope Z_scope.

(** ** Values *)

(** The values that reach the encoder or are stored in its results.
    [Member name] is what a property read finds under one of the names that
    every object inherits from [Object.prototype] (a built-in function, or
    the prototype object itself for [__proto__]). *)
Inductive val : Type :=
| Undefined
| Null
| Bool (b : bool)
| Num (n : Z)
| Str (s : string)
| Member (name : string).

#[global] Instance val_eq_dec : EqDecision val.
Proof. solve_decision. Defined.

(** [typeof v] *)
Definition typeof (v : val) : string :=
  match v with
  | Undefined => "undefined"
  | Null => "object"
  | Bool _ => "boolean"
  | Num _ => "number"
  | Str _ => "string"
  | Member name => if String.eqb name "__proto__" then "object" else "function"
  end.

(** Truthiness, as tested by [if (v)] and [v ? a : b]. *)
Definition truthy (v : val) : bool :=
  match v with
  | Undefined | Null => false
  | Bool b => b
  | Num n => negb (n =? 0)
  | Str s => negb (String.eqb s "")
  | Member _ => true
  end.

(** [a === b] *)
Definition strict_eq (a b : val) : bool := bool_decide (a = b).

(** [a == b] for a string [b] and a primitive [a]: a string equal to it.  A
    number is compared with the numeric reading of [b], which is NaN for the
    only string the source compares with (['partial']).  An object is
    converted to a primitive first; arrays and wrapper objects, which can
    convert to the string, are not among the values of [val]. *)
Definition loose_eq_name (a : val) (b : string) : bool :=
  match a with
  | Str s => String.eqb s b
  | _ => false
  end.

(** ** Integer operators *)

(** ToInt32, applied by the bit operators to their operands. *)
Definition to_int32 (n : Z) : Z := (n + 2 ^ 31) mod 2 ^ 32 - 2 ^ 31.

(** [a & b], [a | b], [a << k], [a >> k] *)
Definition bit_and (a b : Z) : Z := Z.land (to_int32 a) (to_int32 b).
Definition bit_or (a b : Z) : Z := Z.lor (to_int32 a) (to_int32 b).
Definition shl (a k : Z) : Z := to_int32 (Z.shiftl (to_int32 a) (k mod 32)).
Definition sar (a k : Z) : Z := Z.shiftr (to_int32 a) (k mod 32).

(** [Math.round q]: the nearest integer, a tie going up. *)
Definition math_round (q : Q) : Z := Qfloor (q + (1 # 2)).

(** ** Object literals *)

(** The property names every object literal inherits. *)
Definition object_prototype : gmap string val :=
  list_to_map
    (map (fun name => (name, Member name))
       [ "constructor"; "hasOwnProperty"; "isPrototypeOf";
         "propertyIsEnumerable"; "toLocaleString"; "toString"; "valueOf";
         "__proto__"; "__defineGetter__"; "__defineSetter__";
         "__lookupGetter__"; "__lookupSetter__" ]).

(** ToString of a number, for integers below 1e21 in magnitude; larger ones
    print in exponent form, which is no property name of any table here. *)
Definition number_to_string (n : Z) : string := NilZero.string_of_int (Z.to_int n).

(** ToPropertyKey *)
Definition to_key (v : val) : string :=
  match v with
  | Undefined => "undefined"
  | Null => "null"
  | Bool true => "true"
  | Bool false => "false"
  | Num n => number_to_string n
  | Str s => s
  | Member name =>
      if String.eqb name "__proto__" then "[object Object]"
      else String.append "function " (String.append name "() { [native code] }")
  end.

(** [o[k]] *)
Definition get (o : gmap string val) (k : val) : val :=
  match o !! to_key k with
  | Some v => v
  | None => default Undefined (object_prototype !! to_key k)
  end.

(** [k in o] *)
Definition has_property (o : gmap string val) (k : val) : bool :=
  bool_decide (is_Some (o !! to_key k))
  || bool_decide (is_Some (object_prototype !! to_key k)).

(** ** Completions *)

Inductive error : Type :=
| Error (message : string)
| RangeError (message : string).

(** The outcome of a call: a returned value or a thrown error. *)
Inductive completion (A : Type) : Type :=
| Return (a : A)
| Throw (e : error).
Arguments Return {A} a.
Arguments Throw {A} e.

#[global] Instance completion_ret : MRet completion := fun A a => Return a.
#[global] Instance completion_bind : MBind completion := fun A B k c =>
  match c with
  | Return a => k a
  | Throw e => Throw e
  end.

(** A JavaScript array of values, and an array literal of numbers. *)
Abbreviation array := (list val).
Definition literal (ns : list Z) : array := map Num ns.

(** ** Loops *)

(** [for (let i = first; i < bound; i++) { st = body(i, st) }], where the
    body may throw.  The distance from [i] to the bound decreases. *)
Equations? for_lt {S : Type} (bound : Q) (body : Z -> S -> completion S)
  (i : Z) (st : S) : completion S by wf (Z.to_nat (Qceiling bound - i)) lt :=
  for_lt bound body i st with Qlt_le_dec (inject_Z i) bound := {
    | left _ with body i st := {
        | Return st' := for_lt bound body (i + 1) st';
        | Throw e := Throw e };
    | right _ := Return st }.
Proof.
  assert (i < Qceiling bound).
  { rewrite Zlt_Qlt. eapply Qlt_le_trans; [eassumption | apply Qle_ceiling]. }
  lia.
Qed.

(** ** Typed arrays *)

(** [a[i]] on a typed array: [None] stands for [undefined]. *)
Definition element (a : list Z) (i : Z) : option Z :=
  if i <? 0 then None else a !! Z.to_nat i.

(** [typeof e === 'undefined'] and [e > n] for an element read. *)
Definition is_undefined (e : option Z) : bool :=
  match e with None => true | Some _ => false end.
Definition greater (e : option Z) (n : Z) : bool :=
  match e with None => false | Some v => v >? n end.

(** [new Uint8Array(length)]: a negative length is a RangeError.  The upper
    limit an engine puts on the length is not modelled. *)
Definition new_Uint8Array (length : Z) : completion (list Z) :=
  if length <? 0 then Throw (RangeError "Invalid typed array length")
  else Return (replicate (Z.to_nat length) 0).

(** [a[i] = v] on a [Uint8Array]: the value is reduced modulo 256, a write
    outside the array is dropped. *)
Definition store (a : list Z) (i v : Z) : list Z :=
  if i <? 0 then a else <[Z.to_nat i := v mod 256]> a.

(** [ImageData]: [data] is a [Uint8ClampedArray] of RGBA quadruples. *)
Record ImageData : Type := { data : list Z }.

Declare Scope js_scope.
Delimit Scope js_scope with js.
Infix "<<" := shl (at level 32, no associativity) : js_scope.
Infix ".|" := bit_or (at level 42, left associativity) : js_scope.

(** ** The encoder *)

Section LanguageStarPrnt.

(** [CodepageEncoder.encode(input, codepage)], a [Uint8Array]. *)
Variable encode : string -> string -> list Z.

Definition initialize : array :=
  literal [0x1b; 0x40; 0x18].

Definition font (type : val) : array :=
  let value := 0x00 in
  let value := if strict_eq type (Str "B") then 0x01 else value in
  let value := if strict_eq type (Str "C") then 0x02 else value in
  literal [0x1b; 0x1e; 0x46; value].

Definition align (value : val) : array :=
  let align := 0x00 in
  let align :=
    if strict_eq value (Str "center") then 0x01
    else if strict_eq value (Str "right") then 0x02
    else align in
  literal [0x1b; 0x1d; 0x61; align].

Definition symbologies : gmap string val :=
  list_to_map
    [ ("upce", Num 0x00); ("upca", Num 0x01); ("ean8", Num 0x02);
      ("ean13", Num 0x03); ("code39", Num 0x04); ("itf", Num 0x05);
      ("code128", Num 0x06); ("code93", Num 0x07); ("nw-7", Num 0x08);
      ("gs1-128", Num 0x09); ("gs1-databar-omni", Num 0x0a);
      ("gs1-databar-truncated", Num 0x0b); ("gs1-databar-limited", Num 0x0c);
      ("gs1-databar-expanded", Num 0x0d) ].

Definition barcode (value : string) (symbology height : val) : completion array :=
  let result := [] in
  if String.eqb (typeof (get symbologies symbology)) "undefined" then
    Throw (Error "Symbology not supported by printer")
  else
    let bytes := encode value "ascii" in
    let result :=
      result ++ [Num 0x1b; Num 0x62; get symbologies symbology; Num 0x01; Num 0x03; height]
             ++ literal bytes ++ [Num 0x1e] in
    Return result.

Definition models : gmap string val :=
  list_to_map [("1", Num 0x01); ("2", Num 0x02)].

Definition errorlevels : gmap string val :=
  list_to_map [("l", Num 0x00); ("m", Num 0x01); ("q", Num 0x02); ("h", Num 0x03)].

Definition qrcode (value : string) (model size errorlevel : val) : completion array :=
  let result := [] in
  (* Model *)
  let model := if String.eqb (typeof model) "undefined" then Num 2 else model in
  result ←
    (if has_property models model then
       Return (result ++ [Num 0x1b; Num 0x1d; Num 0x79; Num 0x53; Num 0x30; get models model])
     else Throw (Error "Model must be 1 or 2"));
  (* Size *)
  let size := if String.eqb (typeof size) "undefined" then Num 6 else size in
  n ← match size with
      | Num n => Return n
      | _ => Throw (Error "Size must be a number")
      end;
  _ ← (if (n <? 1) || (n >? 8) then Throw (Error "Size must be between 1 and 8")
       else Return tt);
  let result := result ++ [Num 0x1b; Num 0x1d; Num 0x79; Num 0x53; Num 0x32; size] in
  (* Error level *)
  let errorlevel := if String.eqb (typeof errorlevel) "undefined" then Str "m" else errorlevel in
  result ←
    (if has_property errorlevels errorlevel then
       Return (result ++ [Num 0x1b; Num 0x1d; Num 0x79; Num 0x53; Num 0x31;
                          get errorlevels errorlevel])
     else Throw (Error "Error level must be l, m, q or h"));
  (* Data *)
  let bytes := encode value "iso8859-1" in
  let length := Z.of_nat (List.length bytes) in
  let result :=
    result ++ literal [0x1b; 0x1d; 0x79; 0x44; 0x31; 0x00;
                       bit_and length 0xff; bit_and (sar length 8) 0xff]
           ++ literal bytes in
  (* Print QR code *)
  let result := result ++ literal [0x1b; 0x1d; 0x79; 0x50] in
  Return result.

Definition getPixel (image : ImageData) (width : Z) (x y : Z) : Z :=
  if is_undefined (element (data image) ((width * y + x) * 4))
     || greater (element (data image) ((width * y + x) * 4)) 0
  then 0 else 1.

(** The body of the loop over the columns [x] of the band that starts at
    row [y]. *)
Definition column (image : ImageData) (width y x : Z) (bytes : list Z) : list Z :=
  let getPixel := getPixel image width in
  let i := x * 3 in
  let bytes :=
    store bytes i
      (getPixel x (y + 0) << 7 .|
       getPixel x (y + 1) << 6 .|
       getPixel x (y + 2) << 5 .|
       getPixel x (y + 3) << 4 .|
       getPixel x (y + 4) << 3 .|
       getPixel x (y + 5) << 2 .|
       getPixel x (y + 6) << 1 .|
       getPixel x (y + 7))%js in
  let bytes :=
    store bytes (i + 1)
      (getPixel x (y + 8) << 7 .|
       getPixel x (y + 9) << 6 .|
       getPixel x (y + 10) << 5 .|
       getPixel x (y + 11) << 4 .|
       getPixel x (y + 12) << 3 .|
       getPixel x (y + 13) << 2 .|
       getPixel x (y + 14) << 1 .|
       getPixel x (y + 15))%js in
  let bytes :=
    store bytes (i + 2)
      (getPixel x (y + 16) << 7 .|
       getPixel x (y + 17) << 6 .|
       getPixel x (y + 18) << 5 .|
       getPixel x (y + 19) << 4 .|
       getPixel x (y + 20) << 3 .|
       getPixel x (y + 21) << 2 .|
       getPixel x (y + 22) << 1 .|
       getPixel x (y + 23))%js in
  bytes.

(** The body of the loop over the bands [s]. *)
Definition band (image : ImageData) (width s : Z) (result : array) : completion array :=
  let y := s * 24 in
  bytes ← new_Uint8Array (width * 3);
  bytes ← for_lt (inject_Z width)
            (fun x bytes => Return (column image width y x bytes)) 0 bytes;
  Return (result ++ literal [0x1b; 0x58; bit_and width 0xff; bit_and (sar width 8) 0xff]
                 ++ literal bytes
                 ++ literal [0x0a; 0x0d]).

Definition image (image : ImageData) (width height : Z) (mode : val) : completion array :=
  let result := [] in
  let result := result ++ literal [0x1b; 0x30] in
  result ← for_lt (inject_Z height / inject_Z 24)%Q (band image width) 0 result;
  let result := result ++ literal [0x1b; 0x7a; 0x01] in
  Return result.

Definition cut (value : val) : array :=
  let data := 0x00 in
  let data := if loose_eq_name value "partial" then 0x01 else data in
  literal [0x1b; 0x64; data].

Definition pulse (device on off : option Z) : array :=
  let device := default 0 device in
  let on := default 200 on in
  let off := default 200 off in
  let on := Z.min 127 (math_round (inject_Z on / inject_Z 10)%Q) in
  let off := Z.min 127 (math_round (inject_Z off / inject_Z 10)%Q) in
  literal [0x1b; 0x07; bit_and on 0xff; bit_and off 0xff;
           if truthy (Num device) then 0x1a else 0x07].

Definition bold (value : val) : array :=
  let data := 0x46 in
  let data := if truthy value then 0x45 else data in
  literal [0x1b; data].

Definition underline (value : val) : array :=
  let data := 0x00 in
  let data := if truthy value then 0x01 else data in
  literal [0x1b; 0x2d; data].

Definition italic (value : val) : array := [].

Definition invert (value : val) : array :=
  let data := 0x35 in
  let data := if truthy value then 0x34 else data in
  literal [0x1b; data].

Definition size (width height : Z) : array :=
  literal [0x1b; 0x69; height - 1; width - 1].

Definition codepage (value : val) : array :=
  [Num 0x1b; Num 0x1d; Num 0x74; value].

Definition flush : array :=
  literal [0x1b; 0x1d; 0x50; 0x30; 0x1b; 0x1d; 0x50; 0x31].

(** ** Calls *)

(** A call of one of the methods of the class. *)
Inductive call : Type :=
| Initialize
| Font (type : val)
| Align (value : val)
| Barcode (value : string) (symbology height : val)
| Qrcode (value : string) (model size errorlevel : val)
| Image (image : ImageData) (width height : Z) (mode : val)
| Cut (value : val)
| Pulse (device on off : option Z)
| Bold (value : val)
| Underline (value : val)
| Italic (value : val)
| Invert (value : val)
| Size (width height : Z)
| Codepage (value : val)
| Flush.

Definition perform (c : call) : completion array :=
  match c with
  | Initialize => Return initialize
  | Font type => Return (font type)
  | Align value => Return (align value)
  | Barcode value symbology height => barcode value symbology height
  | Qrcode value model size errorlevel => qrcode value model size errorlevel
  | Image image0 width height mode => image image0 width height mode
  | Cut value => Return (cut value)
  | Pulse device on off => Return (pulse device on off)
  | Bold value => Return (bold value)
  | Underline value => Return (underline value)
  | Italic value => Return (italic value)
  | Invert value => Return (invert value)
  | Size width height => Return (size width height)
  | Codepage value => Return (codepage value)
  | Flush => Return flush
  end.

End LanguageStarPrnt.

(** * The methods on a heap *)

(** The same method bodies with the objects they create and change made
    explicit: arrays, typed arrays and object literals live in a heap, a
    variable holds a reference, [push] and an indexed write change the object
    a reference denotes, and a call returns a reference to its result. *)
Module Heap.

Inductive object : Type :=
| Array (elements : list val)
| Uint8Array (elements : list Z)
| Table (properties : gmap string val).

(** A reference is the position of its object in the heap; a new object is
    put after the ones there are. *)
Abbreviation ref := nat.
Abbreviation heap := (list object).

(** A computation on the heap.  The heap is there after a throw too. *)
Definition M (A : Type) : Type := heap -> completion A * heap.

#[global] Instance M_ret : MRet M := fun A a h => (Return a, h).
#[global] Instance M_bind : MBind M := fun A B k m h =>
  match m h with
  | (Return a, h') => k a h'
  | (Throw e, h') => (Throw e, h')
  end.

Definition throw {A : Type} (e : error) : M A := fun h => (Throw e, h).

(** What a reference denotes, read as an array, a typed array or a table. *)
Definition array_of (h : heap) (r : ref) : array :=
  match h !! r with Some (Array elements) => elements | _ => [] end.
Definition bytes_of (h : heap) (r : ref) : list Z :=
  match h !! r with Some (Uint8Array elements) => elements | _ => [] end.
Definition table_of (h : heap) (r : ref) : gmap string val :=
  match h !! r with Some (Table properties) => properties | _ => ∅ end.

(** An array literal, an object literal, [[]]. *)
Definition alloc (o : object) : M ref := fun h => (Return (List.length h), h ++ [o]).

(** [new Uint8Array(length)] *)
Definition new_Uint8Array (length : Z) : M ref :=
  if length <? 0 then throw (RangeError "Invalid typed array length")
  else alloc (Uint8Array (replicate (Z.to_nat length) 0)).

(** [r.push(v1, ..., vk)] *)
Definition push (r : ref) (vs : list val) : M unit := fun h =>
  (Return tt, <[r := Array (array_of h r ++ vs)]> h).

(** [r[i] = v] on a [Uint8Array] *)
Definition set_byte (r : ref) (i v : Z) : M unit := fun h =>
  (Return tt, <[r := Uint8Array (store (bytes_of h r) i v)]> h).

(** [r[i]] on a typed array, and its elements as [...r] spreads them. *)
Definition element_at (r : ref) (i : Z) : M (option Z) := fun h =>
  (Return (element (bytes_of h r) i), h).
Definition spread (r : ref) : M (list Z) := fun h => (Return (bytes_of h r), h).

(** [t[k]] and [k in t] on an object literal. *)
Definition property (t : ref) (k : val) : M val := fun h =>
  (Return (get (table_of h t) k), h).
Definition has (k : val) (t : ref) : M bool := fun h =>
  (Return (has_property (table_of h t) k), h).

(** [for (let i = first; i < bound; i++) body(i)] on the heap. *)
Equations? loop (bound : Q) (body : Z -> M unit) (i : Z) (h : heap)
  : completion unit * heap by wf (Z.to_nat (Qceiling bound - i)) lt :=
  loop bound body i h with Qlt_le_dec (inject_Z i) bound := {
    | left _ with body i h := {
        | (Return _, h') := loop bound body (i + 1) h';
        | (Throw e, h') := (Throw e, h') };
    | right _ := (Return tt, h) }.
Proof.
  assert (i < Qceiling bound).
  { rewrite Zlt_Qlt. eapply Qlt_le_trans; [eassumption | apply Qle_ceiling]. }
  lia.
Qed.

Section Methods.

Variable encode : string -> string -> list Z.

Definition initialize : M ref :=
  alloc (Array (literal [0x1b; 0x40; 0x18])).

Definition font (type : val) : M ref :=
  let value := 0x00 in
  let value := if strict_eq type (Str "B") then 0x01 else value in
  let value := if strict_eq type (Str "C") then 0x02 else value in
  alloc (Array (literal [0x1b; 0x1e; 0x46; value])).

Definition align (value : val) : M ref :=
  let align := 0x00 in
  let align :=
    if strict_eq value (Str "center") then 0x01
    else if strict_eq value (Str "right") then 0x02
    else align in
  alloc (Array (literal [0x1b; 0x1d; 0x61; align])).

Definition barcode (value : string) (symbology height : val) : M ref :=
  result ← alloc (Array []);
  symbologies ← alloc (Table symbologies);
  found ← property symbologies symbology;
  if String.eqb (typeof found) "undefined" then
    throw (Error "Symbology not supported by printer")
  else
    let bytes := encode value "ascii" in
    code ← property symbologies symbology;
    _ ← push result ([Num 0x1b; Num 0x62; code; Num 0x01; Num 0x03; height]
                     ++ literal bytes ++ [Num 0x1e]);
    mret result.

Definition qrcode (value : string) (model size errorlevel : val) : M ref :=
  result ← alloc (Array []);
  (* Model *)
  models ← alloc (Table models);
  let model := if String.eqb (typeof model) "undefined" then Num 2 else model in
  known ← has model models;
  _ ← (if known : bool then
         code ← property models model;
         push result [Num 0x1b; Num 0x1d; Num 0x79; Num 0x53; Num 0x30; code]
       else throw (Error "Model must be 1 or 2"));
  (* Size *)
  let size := if String.eqb (typeof size) "undefined" then Num 6 else size in
  n ← match size with
      | Num n => mret n
      | _ => throw (Error "Size must be a number")
      end;
  _ ← (if (n <? 1) || (n >? 8) then throw (Error "Size must be between 1 and 8")
       else mret tt);
  _ ← push result [Num 0x1b; Num 0x1d; Num 0x79; Num 0x53; Num 0x32; size];
  (* Error level *)
  errorlevels ← alloc (Table errorlevels);
  let errorlevel := if String.eqb (typeof errorlevel) "undefined" then Str "m" else errorlevel in
  known ← has errorlevel errorlevels;
  _ ← (if known : bool then
         code ← property errorlevels errorlevel;
         push result [Num 0x1b; Num 0x1d; Num 0x79; Num 0x53; Num 0x31; code]
       else throw (Error "Error level must be l, m, q or h"));
  (* Data *)
  let bytes := encode value "iso8859-1" in
  let length := Z.of_nat (List.length bytes) in
  _ ← push result (literal [0x1b; 0x1d; 0x79; 0x44; 0x31; 0x00;
                            bit_and length 0xff; bit_and (sar length 8) 0xff]
                   ++ literal bytes);
  (* Print QR code *)
  _ ← push result (literal [0x1b; 0x1d; 0x79; 0x50]);
  mret result.

(** [image] stands for the buffer [image.data]. *)
Definition getPixel (image : ref) (width x y : Z) : M Z :=
  first ← element_at image ((width * y + x) * 4);
  if is_undefined first then mret 0
  else
    second ← element_at image ((width * y + x) * 4);
    mret (if greater second 0 then 0 else 1).

Definition column (image bytes : ref) (width y x : Z) : M unit :=
  let getPixel := getPixel image width in
  let i := x * 3 in
  p0 ← getPixel x (y + 0);
  p1 ← getPixel x (y + 1);
  p2 ← getPixel x (y + 2);
  p3 ← getPixel x (y + 3);
  p4 ← getPixel x (y + 4);
  p5 ← getPixel x (y + 5);
  p6 ← getPixel x (y + 6);
  p7 ← getPixel x (y + 7);
  _ ← set_byte bytes i
        (p0 << 7 .| p1 << 6 .| p2 << 5 .| p3 << 4 .| p4 << 3 .| p5 << 2 .| p6 << 1 .| p7)%js;
  p8 ← getPixel x (y + 8);
  p9 ← getPixel x (y + 9);
  p10 ← getPixel x (y + 10);
  p11 ← getPixel x (y + 11);
  p12 ← getPixel x (y + 12);
  p13 ← getPixel x (y + 13);
  p14 ← getPixel x (y + 14);
  p15 ← getPixel x (y + 15);
  _ ← set_byte bytes (i + 1)
        (p8 << 7 .| p9 << 6 .| p10 << 5 .| p11 << 4 .| p12 << 3 .| p13 << 2 .| p14 << 1
         .| p15)%js;
  p16 ← getPixel x (y + 16);
  p17 ← getPixel x (y + 17);
  p18 ← getPixel x (y + 18);
  p19 ← getPixel x (y + 19);
  p20 ← getPixel x (y + 20);
  p21 ← getPixel x (y + 21);
  p22 ← getPixel x (y + 22);
  p23 ← getPixel x (y + 23);
  set_byte bytes (i + 2)
    (p16 << 7 .| p17 << 6 .| p18 << 5 .| p19 << 4 .| p20 << 3 .| p21 << 2 .| p22 << 1
     .| p23)%js.

Definition band (image result : ref) (width s : Z) : M unit :=
  let y := s * 24 in
  bytes ← new_Uint8Array (width * 3);
  _ ← loop (inject_Z width) (column image bytes width y) 0;
  elements ← spread bytes;
  push result (literal [0x1b; 0x58; bit_and width 0xff; bit_and (sar width 8) 0xff]
               ++ literal elements
               ++ literal [0x0a; 0x0d]).

Definition image (image : ref) (width height : Z) (mode : val) : M ref :=
  result ← alloc (Array []);
  _ ← push result (literal [0x1b; 0x30]);
  _ ← loop (inject_Z height / inject_Z 24)%Q (band image result width) 0;
  _ ← push result (literal [0x1b; 0x7a; 0x01]);
  mret result.

Definition cut (value : val) : M ref :=
  let data := 0x00 in
  let data := if loose_eq_name value "partial" then 0x01 else data in
  alloc (Array (literal [0x1b; 0x64; data])).

Definition pulse (device on off : option Z) : M ref :=
  let device := default 0 device in
  let on := default 200 on in
  let off := default 200 off in
  let on := Z.min 127 (math_round (inject_Z on / inject_Z 10)%Q) in
  let off := Z.min 127 (math_round (inject_Z off / inject_Z 10)%Q) in
  alloc (Array (literal [0x1b; 0x07; bit_and on 0xff; bit_and off 0xff;
                         if truthy (Num device) then 0x1a else 0x07])).

Definition bold (value : val) : M ref :=
  let data := 0x46 in
  let data := if truthy value then 0x45 else data in
  alloc (Array (literal [0x1b; data])).

Definition underline (value : val) : M ref :=
  let data := 0x00 in
  let data := if truthy value then 0x01 else data in
  alloc (Array (literal [0x1b; 0x2d; data])).

Definition italic (value : val) : M ref :=
  alloc (Array []).

Definition invert (value : val) : M ref :=
  let data := 0x35 in
  let data := if truthy value then 0x34 else data in
  alloc (Array (literal [0x1b; data])).

Definition size (width height : Z) : M ref :=
  alloc (Array (literal [0x1b; 0x69; height - 1; width - 1])).

Definition codepage (value : val) : M ref :=
  alloc (Array [Num 0x1b; Num 0x1d; Num 0x74; value]).

Definition flush : M ref :=
  alloc (Array (literal [0x1b; 0x1d; 0x50; 0x30; 0x1b; 0x1d; 0x50; 0x31])).

(** A call of a method, with the buffer of an image passed by reference. *)
Inductive call : Type :=
| Initialize
| Font (type : val)
| Align (value : val)
| Barcode (value : string) (symbology height : val)
| Qrcode (value : string) (model size errorlevel : val)
| Image (image : ref) (width height : Z) (mode : val)
| Cut (value : val)
| Pulse (device on off : option Z)
| Bold (value : val)
| Underline (value : val)
| Italic (value : val)
| Invert (value : val)
| Size (width height : Z)
| Codepage (value : val)
| Flush.

Definition invoke (c : call) : M ref :=
  match c with
  | Initialize => initialize
  | Font type => font type
  | Align value => align value
  | Barcode value symbology height => barcode value symbology height
  | Qrcode value model size errorlevel => qrcode value model size errorlevel
  | Image image0 width height mode => image image0 width height mode
  | Cut value => cut value
  | Pulse device on off => pulse device on off
  | Bold value => bold value
  | Underline value => underline value
  | Italic value => italic value
  | Invert value => invert value
  | Size width height => size width height
  | Codepage value => codepage value
  | Flush => flush
  end.

End Methods.

End Heap.

(** * Vocabulary of the properties *)

(** [k] rounds of a loop body, from the counter value [i]. *)
Fixpoint rounds {S : Type} (body : Z -> S -> completion S) (i : Z) (k : nat) (st : S)
  : completion S :=
  match k with
  | O => Return st
  | S k => st' ← body i st; rounds body (i + 1) k st'
  end.

(** Reading a decimal numeral back. *)
Definition parse_number (s : string) : option Z :=
  option_map Z.of_int (NilZero.int_of_string s).

(** The five sub-commands. *)
Definition model_command (m : val) : array :=
  [Num 0x1b; Num 0x1d; Num 0x79; Num 0x53; Num 0x30; m].
Definition size_command (n : val) : array :=
  [Num 0x1b; Num 0x1d; Num 0x79; Num 0x53; Num 0x32; n].
Definition level_command (e : val) : array :=
  [Num 0x1b; Num 0x1d; Num 0x79; Num 0x53; Num 0x31; e].
Definition store_command (lo hi : Z) (payload : list Z) : array :=
  literal [0x1b; 0x1d; 0x79; 0x44; 0x31] ++ literal [0x00; lo; hi] ++ literal payload.
Definition print_command : array :=
  literal [0x1b; 0x1d; 0x79; 0x50].

(** The elements of a [Uint8ClampedArray]. *)
Definition uint8 (v : Z) : Prop := 0 <= v <= 255.

(** The layout of a band as the specification words it.  [spec_packed] is
    the byte for eight rows from [y] of column [x], the topmost row in the
    most significant bit. *)
Definition spec_packed (image : ImageData) (width x y : Z) : Z :=
  128 * getPixel image width x y + 64 * getPixel image width x (y + 1)
  + 32 * getPixel image width x (y + 2) + 16 * getPixel image width x (y + 3)
  + 8 * getPixel image width x (y + 4) + 4 * getPixel image width x (y + 5)
  + 2 * getPixel image width x (y + 6) + getPixel image width x (y + 7).

Definition spec_column (image : ImageData) (width y x : Z) : list Z :=
  [spec_packed image width x y; spec_packed image width x (y + 8);
   spec_packed image width x (y + 16)].

Definition spec_band (image : ImageData) (width s : Z) : array :=
  literal [0x1b; 0x58; width mod 256; width / 256 mod 256]
  ++ literal (concat (map (spec_column image width (s * 24)) (seqZ 0 width)))
  ++ literal [0x0a; 0x0d].

(** The bands of an image of [height] rows: one for every 24 rows begun. *)
Definition spec_bands (height : Z) : list Z := seqZ 0 ((height + 23) / 24).

(** A value that is one byte. *)
Definition is_byte (v : val) : Prop := exists n, v = Num n /\ 0 <= n <= 255.

(** What [getPixel] tests of an element read: it is missing or positive. *)
Definition blank (e : option Z) : bool := is_undefined e || greater e 0.

(** The calls whose arguments only select among fixed bytes, and [image]. *)
Definition plain (c : call) : bool :=
  match c with
  | Barcode _ _ _ | Qrcode _ _ _ _ | Size _ _ | Codepage _ => false
  | _ => true
  end.

(** [k] rounds of a loop body on the heap, from the counter value [i]. *)
Fixpoint heap_rounds (body : Z -> Heap.M unit) (i : Z) (k : nat) (h : Heap.heap)
  : completion unit * Heap.heap :=
  match k with
  | O => (Return tt, h)
  | S k =>
      match body i h with
      | (Return _, h') => heap_rounds body (i + 1) k h'
      | (Throw e, h') => (Throw e, h')
      end
  end.

(** The outcome of a run on the heap as its caller sees it: the elements of
    the array returned, or the error thrown. *)
Definition observe (run : completion Heap.ref * Heap.heap) : completion array :=
  match run with
  | (Return r, h) => Return (Heap.array_of h r)
  | (Throw e, _) => Throw e
  end.

(** A run from [h] computes [outcome] in new objects: the objects of [h] are
    as they were, and a returned array is the first of the new ones. *)
Definition computes (run : completion Heap.ref * Heap.heap) (h : Heap.heap)
  (outcome : completion array) : Prop :=
  exists made : Heap.heap,
    snd run = h ++ made
    /\ match outcome with
       | Return out =>
           fst run = Return (List.length h) /\ made !! 0%nat = Some (Heap.Array out)
       | Throw e => fst run = Throw e
       end.

(** The arguments of a call as the method reads them: the elements of the
    buffer stand for its reference. *)
Definition view (h : Heap.heap) (c : Heap.call) : call :=
  match c with
  | Heap.Initialize => Initialize
  | Heap.Font type => Font type
  | Heap.Align value => Align value
  | Heap.Barcode value symbology height => Barcode value symbology height
  | Heap.Qrcode value model size errorlevel => Qrcode value model size errorlevel
  | Heap.Image image0 width height mode =>
      Image {| data := Heap.bytes_of h image0 |} width height mode
  | Heap.Cut value => Cut value
  | Heap.Pulse device on off => Pulse device on off
  | Heap.Bold value => Bold value
  | Heap.Underline value => Underline value
  | Heap.Italic value => Italic value
  | Heap.Invert value => Invert value
  | Heap.Size width height => Size width height
  | Heap.Codepage value => Codepage value
  | Heap.Flush => Flush
  end.

(** The references among the arguments denote objects of the heap. *)
Definition valid (h : Heap.heap) (c : Heap.call) : Prop :=
  match c with
  | Heap.Image image0 _ _ _ => (image0 < List.length h)%nat
  | _ => True
  end.

(** The values that are no object. *)
Definition primitive (v : val) : Prop := forall name, v <> Member name.

(** A codec to run the encoder on examples: every character of the text
    gives its character code, for every codepage. *)
Definition char_codes (input codepage : string) : list Z :=
  map (fun c => Z.of_N (N_of_ascii c)) (list_ascii_of_string input).

(** A 1 x 24 image whose pixels are all opaque black. *)
Definition black_column : ImageData :=
  {| data := concat (replicate 24 [0; 0; 0; 255]) |}.

(** * Properties *)

(** ** The loop [for_lt] *)

Lemma for_lt_continue {S} bound (body : Z -> S -> completion S) i st :
  (inject_Z i < bound)%Q ->
  for_lt bound body i st = body i st ≫= for_lt bound body (i + 1).
Proof.
  intros Hlt. rewrite for_lt_equation_1.
  destruct (Qlt_le_dec (inject_Z i) bound) as [Hlt' | Hge].
  - simpl. destruct (body i st); reflexivity.
  - exfalso. eapply Qlt_not_le; eassumption.
Qed.

Lemma for_lt_exit {S} bound (body : Z -> S -> completion S) i st :
  (bound <= inject_Z i)%Q -> for_lt bound body i st = Return st.
Proof.
  intros Hge. rewrite for_lt_equation_1.
  destruct (Qlt_le_dec (inject_Z i) bound) as [Hlt | Hge'].
  - exfalso. eapply Qlt_not_le; eassumption.
  - reflexivity.
Qed.

Lemma Qceiling_gt (bound : Q) (i : Z) : i < Qceiling bound <-> (inject_Z i < bound)%Q.
Proof.
  split; intros H.
  - destruct (Qlt_le_dec (inject_Z i) bound) as [Hlt | Hge]; [exact Hlt |].
    apply Qceiling_resp_le in Hge. rewrite Qceiling_Z in Hge. lia.
  - rewrite Zlt_Qlt. eapply Qlt_le_trans; [exact H | apply Qle_ceiling].
Qed.

(** The loop runs once for every integer from [i] that is below the bound. *)
Lemma for_lt_rounds {S} bound (body : Z -> S -> completion S) i st :
  for_lt bound body i st = rounds body i (Z.to_nat (Qceiling bound - i)) st.
Proof.
  remember (Z.to_nat (Qceiling bound - i)) as k eqn:Hk.
  revert i st Hk. induction k as [| k IH]; intros i st Hk.
  - apply for_lt_exit.
    destruct (Qlt_le_dec (inject_Z i) bound) as [Hlt | Hge]; [| exact Hge].
    apply Qceiling_gt in Hlt. lia.
  - rewrite for_lt_continue by (apply Qceiling_gt; lia).
    simpl. destruct (body i st) as [st' | e]; simpl; [| reflexivity].
    apply IH. lia.
Qed.

(** The number of bands: the integers [s >= 0] with [s < height / 24]. *)
Lemma Qceiling_div (n d : Z) :
  0 < d -> Qceiling (inject_Z n / inject_Z d) = (n + d - 1) / d.
Proof.
  intros Hd. unfold Qceiling, Qfloor, Qdiv, Qmult, Qinv, Qopp, inject_Z. simpl.
  destruct d as [| p | p]; try lia. simpl.
  rewrite ?Z.mul_1_r, ?Pos.mul_1_l.
  assert (Hp : 0 < Z.pos p) by lia.
  pose proof (Z.div_mod (- n) (Z.pos p) ltac:(lia)) as Hdm.
  pose proof (Z.mod_pos_bound (- n) (Z.pos p) Hp) as Hb.
  apply Z.div_unique with (r := Z.pos p - 1 - (- n) mod Z.pos p); lia.
Qed.

(** ** Integer operators *)

Lemma to_int32_mod (n : Z) : exists c, to_int32 n = n + 2 ^ 32 * c.
Proof.
  unfold to_int32. exists (- ((n + 2 ^ 31) / 2 ^ 32)).
  pose proof (Z.div_mod (n + 2 ^ 31) (2 ^ 32) ltac:(lia)). lia.
Qed.

Lemma to_int32_small (n : Z) : - 2 ^ 31 <= n < 2 ^ 31 -> to_int32 n = n.
Proof.
  intros H. unfold to_int32. rewrite Z.mod_small by lia. lia.
Qed.

(** [n & 0xff] is the low byte of [n]. *)
Lemma bit_and_0xff (n : Z) : bit_and n 0xff = n mod 256.
Proof.
  unfold bit_and. rewrite (to_int32_small 255) by lia.
  change 255 with (Z.ones 8). rewrite Z.land_ones by lia.
  destruct (to_int32_mod n) as [c Hc]; rewrite Hc.
  change (2 ^ 8) with 256.
  replace (n + 2 ^ 32 * c) with (n + (2 ^ 24 * c) * 256) by lia.
  apply Z.mod_add. lia.
Qed.

(** [(n >> 8) & 0xff] is the second byte of [n]. *)
Lemma bit_and_sar8_0xff (n : Z) : bit_and (sar n 8) 0xff = n / 256 mod 256.
Proof.
  rewrite bit_and_0xff. unfold sar. change (8 mod 32) with 8.
  rewrite Z.shiftr_div_pow2 by lia.
  destruct (to_int32_mod n) as [c Hc]; rewrite Hc. change (2 ^ 8) with 256.
  replace (n + 2 ^ 32 * c) with (n + (2 ^ 24 * c) * 256) by lia.
  rewrite Z.div_add by lia.
  replace (n / 256 + 2 ^ 24 * c) with (n / 256 + (2 ^ 16 * c) * 256) by lia.
  apply Z.mod_add. lia.
Qed.

(** The two bytes are the little-endian 16-bit reading of [n]. *)
Lemma little_endian_16 (n : Z) :
  n mod 256 + 256 * (n / 256 mod 256) = n mod 65536.
Proof.
  pose proof (Z.div_mod n 256 ltac:(lia)).
  pose proof (Z.div_mod (n / 256) 256 ltac:(lia)).
  pose proof (Z.mod_pos_bound n 256 ltac:(lia)).
  pose proof (Z.mod_pos_bound (n / 256) 256 ltac:(lia)).
  apply Z.mod_unique with (q := n / 256 / 256); lia.
Qed.

(** [Math.round(n / 10)] on an integer [n]. *)
Lemma math_round_tenth (n : Z) :
  math_round (inject_Z n / inject_Z 10) = (n + 5) / 10.
Proof.
  unfold math_round, Qfloor, Qplus, Qdiv, Qmult, Qinv, inject_Z. simpl.
  change (Z.pos (1 * 10 * 2)) with (2 * 10). change (Z.pos (1 * 10)) with 10.
  replace (n * 1 * 2 + 1 * 10) with (2 * (n + 5)) by lia.
  apply Z.div_mul_cancel_l; lia.
Qed.

(** ** Property keys *)

Lemma parse_number_to_string (n : Z) : parse_number (number_to_string n) = Some n.
Proof.
  unfold parse_number, number_to_string.
  rewrite NilZero.isi.
  - simpl. f_equal. apply DecimalZ.of_to.
  - destruct n; simpl; try discriminate.
    intros [= H]. revert H. apply DecimalPos.Unsigned.to_uint_nonnil.
  - destruct n; simpl; try discriminate.
    intros [= H]. revert H. apply DecimalPos.Unsigned.to_uint_nonnil.
Qed.

Lemma number_to_string_inj (a b : Z) :
  number_to_string a = number_to_string b -> a = b.
Proof.
  intros H. apply (f_equal parse_number) in H.
  rewrite !parse_number_to_string in H. congruence.
Qed.

(** The names found in [Object.prototype]. *)
Lemma object_prototype_lookup (k : string) (v : val) :
  object_prototype !! k = Some v ->
  v = Member k /\
  k ∈ [ "constructor"; "hasOwnProperty"; "isPrototypeOf"; "propertyIsEnumerable";
        "toLocaleString"; "toString"; "valueOf"; "__proto__"; "__defineGetter__";
        "__defineSetter__"; "__lookupGetter__"; "__lookupSetter__" ].
Proof.
  intros H. apply elem_of_list_to_map_2 in H.
  apply list_elem_of_fmap in H as (name & [= -> ->] & Hin). auto.
Qed.

(** No number prints as an inherited name. *)
Lemma object_prototype_number (n : Z) : object_prototype !! number_to_string n = None.
Proof.
  destruct (object_prototype !! number_to_string n) as [v |] eqn:Hv; [| reflexivity].
  apply object_prototype_lookup in Hv as [_ Hin].
  pose proof (parse_number_to_string n) as Hp.
  repeat (apply elem_of_cons in Hin as [Hin | Hin];
          [rewrite Hin in Hp; vm_compute in Hp; discriminate |]).
  inversion Hin.
Qed.

(** ** [barcode] *)

Section Barcode.

Variable encode : string -> string -> list Z.

Ltac each_entry H :=
  repeat (apply elem_of_cons in H as [H | H]; [injection H as -> -> |]);
  [.. | inversion H].

(** The table holds the codes 0 to 13. *)
Lemma symbologies_codes (name : string) (code : val) :
  symbologies !! name = Some code -> exists n, code = Num n /\ 0 <= n <= 13.
Proof.
  intros H. apply elem_of_list_to_map_2 in H.
  each_entry H; eexists; (split; [reflexivity | lia]).
Qed.

Lemma symbologies_size : base.size symbologies = 14%nat.
Proof. reflexivity. Qed.

(** A name that neither the table nor [Object.prototype] holds is refused. *)
Lemma barcode_unknown (value name : string) (height : val) :
  symbologies !! name = None ->
  object_prototype !! name = None ->
  barcode encode value (Str name) height
  = Throw (Error "Symbology not supported by printer").
Proof.
  intros Hown Hproto. unfold barcode, get. cbn [to_key].
  rewrite Hown, Hproto. reflexivity.
Qed.


(** C5: the lookup [symbologies[symbology]] also finds the members every
    object inherits, so a name such as [toString], which is not one of the 14
    symbologies, passes the test and [barcode] returns a sequence whose third
    element is that member instead of throwing. *)
Theorem barcode_inherited_name (value : string) (height : val) :
  symbologies !! "toString" = None /\
  barcode encode value (Str "toString") height
  = Return ([Num 0x1b; Num 0x62; Member "toString"; Num 0x01; Num 0x03; height]
            ++ literal (encode value "ascii") ++ [Num 0x1e]).
Proof. split; reflexivity. Qed.

End Barcode.

(** ** [qrcode] *)

Section Qrcode.

Variable encode : string -> string -> list Z.

(** The store-data and print sub-commands end every sequence that got past
    the three checks. *)
Lemma qrcode_tail (value : string) (result : array) :
  let bytes := encode value "iso8859-1" in
  let length := Z.of_nat (List.length bytes) in
  (result ++ literal [0x1b; 0x1d; 0x79; 0x44; 0x31; 0x00;
                      bit_and length 0xff; bit_and (sar length 8) 0xff]
          ++ literal bytes) ++ literal [0x1b; 0x1d; 0x79; 0x50]
  = result ++ store_command (length mod 256) (length / 256 mod 256) bytes ++ print_command.
Proof.
  intros bytes length. rewrite bit_and_0xff, bit_and_sar8_0xff.
  unfold store_command, print_command. rewrite <- !app_assoc. reflexivity.
Qed.

(** The checks of [qrcode] in the order they are made, with the sequence
    that is returned when all three pass. *)
Lemma qrcode_checks (value : string) (model0 size0 errorlevel0 : val) :
  let model := if String.eqb (typeof model0) "undefined" then Num 2 else model0 in
  let size := if String.eqb (typeof size0) "undefined" then Num 6 else size0 in
  let errorlevel :=
    if String.eqb (typeof errorlevel0) "undefined" then Str "m" else errorlevel0 in
  let bytes := encode value "iso8859-1" in
  let length := Z.of_nat (List.length bytes) in
  qrcode encode value model0 size0 errorlevel0 =
    if negb (has_property models model) then Throw (Error "Model must be 1 or 2")
    else match size with
         | Num n =>
             if (n <? 1) || (n >? 8) then Throw (Error "Size must be between 1 and 8")
             else if negb (has_property errorlevels errorlevel)
                  then Throw (Error "Error level must be l, m, q or h")
                  else Return (model_command (get models model) ++ size_command size
                               ++ level_command (get errorlevels errorlevel)
                               ++ store_command (length mod 256) (length / 256 mod 256) bytes
                               ++ print_command)
         | _ => Throw (Error "Size must be a number")
         end.
Proof.
  intros model' size' errorlevel' bytes length. unfold qrcode.
  fold model' size' errorlevel'.
  destruct (has_property models model'); [| reflexivity].
  cbn [negb mbind completion_bind app].
  destruct size' as [| | b | n | s | name]; try reflexivity.
  cbn [mbind completion_bind].
  destruct ((n <? 1) || (n >? 8)); [reflexivity |].
  cbn [mbind completion_bind].
  destruct (has_property errorlevels errorlevel'); [| reflexivity].
  cbn [negb mbind completion_bind].
  fold bytes. fold length. rewrite (qrcode_tail value).
  unfold model_command, size_command, level_command.
  reflexivity.
Qed.

(** A numeric model other than 1 and 2 is refused. *)
Lemma qrcode_model_refused (value : string) (n : Z) (size errorlevel : val) :
  n <> 1 -> n <> 2 ->
  qrcode encode value (Num n) size errorlevel = Throw (Error "Model must be 1 or 2").
Proof.
  intros H1 H2. rewrite qrcode_checks. cbn [typeof String.eqb Ascii.eqb Bool.eqb].
  assert (Hno : has_property models (Num n) = false).
  { unfold has_property. simpl to_key. rewrite object_prototype_number.
    destruct (models !! number_to_string n) as [v |] eqn:Hv; [| reflexivity].
    apply elem_of_list_to_map_2 in Hv.
    apply elem_of_cons in Hv as [[= Hk _] | Hv].
    { apply (number_to_string_inj n 1) in Hk. contradiction. }
    apply elem_of_cons in Hv as [[= Hk _] | Hv].
    { apply (number_to_string_inj n 2) in Hk. contradiction. }
    inversion Hv. }
  rewrite Hno. reflexivity.
Qed.

(** With a model that passes, a size that is no number is refused, and so is
    a number outside 1..8. *)
Lemma qrcode_size_refused (value : string) (size errorlevel : val) :
  typeof size <> "undefined" ->
  (forall n, size = Num n -> n < 1 \/ 8 < n) ->
  exists message, qrcode encode value Undefined size errorlevel = Throw (Error message).
Proof.
  intros Hdef Hbad. rewrite qrcode_checks.
  change (has_property models
            (if String.eqb (typeof Undefined) "undefined" then Num 2 else Undefined))
    with true. cbn [negb].
  destruct size as [| | b | n | s | name]; simpl in Hdef; try contradiction;
    try (eexists; reflexivity).
  - cbn [typeof String.eqb Ascii.eqb Bool.eqb].
    destruct (Hbad n eq_refl) as [Hlo | Hhi]; eexists.
    + destruct (Z.ltb_spec n 1); [| lia]. reflexivity.
    + destruct (Z.ltb_spec n 1); [reflexivity |].
      destruct (Z.gtb_spec n 8); [| lia]. reflexivity.
  - simpl. destruct (String.eqb name "__proto__"); eexists; reflexivity.
Qed.

(** An error level that neither the table nor [Object.prototype] holds is
    refused. *)
Lemma qrcode_level_refused (value level : string) :
  errorlevels !! level = None ->
  object_prototype !! level = None ->
  qrcode encode value Undefined Undefined (Str level)
  = Throw (Error "Error level must be l, m, q or h").
Proof.
  intros Hown Hproto. rewrite qrcode_checks.
  assert (Hno : has_property errorlevels (Str level) = false).
  { unfold has_property. simpl to_key. rewrite Hown, Hproto. reflexivity. }
  simpl. rewrite Hno. reflexivity.
Qed.

(** C2: with model 1, 2 or omitted (then 2), size 1..8 or omitted (then 6)
    and error level l, m, q, h or omitted (then m, code 1), [qrcode] returns
    the model, size and error-level sub-commands, the store-data sub-command
    with body [0x00, low, high, payload] where [low + 256 * high] is the
    16-bit length of the [iso8859-1] bytes of the value, and the print
    sub-command, in this order. *)
Theorem qrcode_stages (value : string) (model size errorlevel : val) (m n e : Z) :
  (model = Undefined /\ m = 2 \/ model = Num m /\ (m = 1 \/ m = 2)) ->
  (size = Undefined /\ n = 6 \/ size = Num n /\ 1 <= n <= 8) ->
  (errorlevel = Undefined /\ e = 1 \/
   (errorlevel, e) ∈ [(Str "l", 0); (Str "m", 1); (Str "q", 2); (Str "h", 3)]) ->
  let payload := encode value "iso8859-1" in
  let length := Z.of_nat (List.length payload) in
  exists lo hi : Z,
    0 <= lo < 256 /\ 0 <= hi < 256 /\ lo + 256 * hi = length mod 65536 /\
    qrcode encode value model size errorlevel
    = Return (model_command (Num m) ++ size_command (Num n) ++ level_command (Num e)
              ++ store_command lo hi payload ++ print_command).
Proof.
  intros Hm Hn He payload length.
  exists (length mod 256), (length / 256 mod 256).
  split; [apply Z.mod_pos_bound; lia |].
  split; [apply Z.mod_pos_bound; lia |].
  split; [apply little_endian_16 |].
  rewrite qrcode_checks. fold payload. fold length.
  assert (Hmodel :
    let model := if String.eqb (typeof model) "undefined" then Num 2 else model in
    has_property models model = true /\ get models model = Num m).
  { destruct Hm as [[-> ->] | [-> [-> | ->]]]; split; reflexivity. }
  assert (Hsize :
    (if String.eqb (typeof size) "undefined" then Num 6 else size) = Num n
    /\ (n <? 1) || (n >? 8) = false).
  { destruct Hn as [[-> ->] | [-> Hr]]; [split; reflexivity |].
    split; [reflexivity |].
    destruct (Z.ltb_spec n 1); [lia |]. destruct (Z.gtb_spec n 8); [lia | reflexivity]. }
  assert (Hlevel :
    let errorlevel :=
      if String.eqb (typeof errorlevel) "undefined" then Str "m" else errorlevel in
    has_property errorlevels errorlevel = true /\ get errorlevels errorlevel = Num e).
  { destruct He as [[-> ->] | He]; [split; reflexivity |].
    repeat (apply elem_of_cons in He as [[= -> ->] | He]; [split; reflexivity |]).
    inversion He. }
  cbv zeta in Hmodel, Hlevel.
  destruct Hmodel as [-> ->], Hsize as [-> ->], Hlevel as [-> ->].
  reflexivity.
Qed.

(** C4: [errorlevel in errorlevels] also holds for the names every object
    inherits, so the error level [toString], which is none of l, m, q, h,
    raises no error: the call returns a sequence whose error-level
    sub-command carries the inherited member. *)
Theorem qrcode_inherited_level (value : string) :
  errorlevels !! "toString" = None /\
  exists rest,
    qrcode encode value Undefined Undefined (Str "toString")
    = Return (model_command (Num 2) ++ size_command (Num 6)
              ++ level_command (Member "toString") ++ rest).
Proof.
  split; [reflexivity |]. eexists. rewrite qrcode_checks. reflexivity.
Qed.

End Qrcode.

(** ** [size] and [pulse] *)

(** C8: [size] puts [height - 1] before [width - 1], whatever the two
    numbers are: nothing is checked, clamped or reduced.  [size(2, 3)] is
    [0x1b 0x69 2 1]. *)
Theorem size_height_first :
  (forall width height : Z,
     size width height = [Num 0x1b; Num 0x69; Num (height - 1); Num (width - 1)])
  /\ size 2 3 = [Num 0x1b; Num 0x69; Num 2; Num 1].
Proof. split; reflexivity. Qed.

(** The nearest integer to [n / 10], a tie going up. *)
Lemma math_round_tenth_nearest (n : Z) :
  let r := math_round (inject_Z n / inject_Z 10) in
  10 * r - 5 <= n < 10 * r + 5.
Proof.
  intros r. subst r. rewrite math_round_tenth.
  pose proof (Z.div_mod (n + 5) 10 ltac:(lia)).
  pose proof (Z.mod_pos_bound (n + 5) 10 ltac:(lia)). lia.
Qed.

(** C7: the parameters of [pulse] default to 0, 200 and 200.  Each time is
    replaced by the nearest integer [t] to its tenth and capped by
    [min 127 t]; the byte that is sent is the low byte of the capped value,
    which is the capped value itself for a time that is not negative.  The
    last byte is [0x07] for device 0 and [0x1a] for any other device.
    [pulse(0, 2000, 2000)] sends 127 twice. *)
Theorem pulse_timing :
  (forall device on off : option Z,
     exists t_on t_off : Z,
       (10 * t_on - 5 <= default 200 on < 10 * t_on + 5) /\
       (10 * t_off - 5 <= default 200 off < 10 * t_off + 5) /\
       pulse device on off
       = literal [0x1b; 0x07; Z.min 127 t_on mod 256; Z.min 127 t_off mod 256;
                  if decide (default 0 device = 0) then 0x07 else 0x1a] /\
       (0 <= default 200 on -> Z.min 127 t_on mod 256 = Z.min 127 t_on) /\
       (0 <= default 200 off -> Z.min 127 t_off mod 256 = Z.min 127 t_off))
  /\ pulse None None None = literal [0x1b; 0x07; 20; 20; 0x07]
  /\ pulse (Some 0) (Some 2000) (Some 2000) = literal [0x1b; 0x07; 127; 127; 0x07].
Proof.
  split; [| split; reflexivity].
  intros device on off.
  exists (math_round (inject_Z (default 200 on) / inject_Z 10)),
         (math_round (inject_Z (default 200 off) / inject_Z 10)).
  pose proof (math_round_tenth_nearest (default 200 on)) as Hon.
  pose proof (math_round_tenth_nearest (default 200 off)) as Hoff.
  cbv zeta in Hon, Hoff.
  split; [exact Hon |]. split; [exact Hoff |]. split.
  - unfold pulse. rewrite !bit_and_0xff. simpl truthy.
    destruct (decide (default 0 device = 0)) as [-> | Hne]; [reflexivity |].
    destruct (Z.eqb_spec (default 0 device) 0); [contradiction | reflexivity].
  - split; intros Hpos; apply Z.mod_small; lia.
Qed.

(** ** [image]: pixel sampling *)

Lemma getPixel_bit (image : ImageData) (width x y : Z) :
  getPixel image width x y = 0 \/ getPixel image width x y = 1.
Proof.
  unfold getPixel. destruct (_ || _); [left | right]; reflexivity.
Qed.

Lemma element_uint8 (a : list Z) (i v : Z) :
  Forall uint8 a -> element a i = Some v -> uint8 v.
Proof.
  intros Ha. unfold element. destruct (i <? 0); [discriminate |].
  intros Hv. rewrite Forall_forall in Ha. apply Ha.
  eapply list_elem_of_lookup_2. exact Hv.
Qed.

(** A coordinate whose row is below the last row of a [width] x [height]
    buffer is outside the buffer. *)
Lemma element_below (image : ImageData) (width height x y : Z) :
  List.length (data image) = Z.to_nat (width * height * 4) ->
  0 <= x < width -> 0 <= height <= y ->
  element (data image) ((width * y + x) * 4) = None.
Proof.
  intros Hlen Hx Hy. unfold element.
  destruct (Z.ltb_spec ((width * y + x) * 4) 0); [reflexivity |].
  apply lookup_ge_None. rewrite Hlen. nia.
Qed.

(** C1, as the source has it: a pixel is sampled as on (1) exactly when its
    coordinate is inside the buffer and its first colour channel is 0; a
    coordinate outside the buffer is sampled as off (0), and so is every row
    below the image in a last, partial band. *)
Theorem getPixel_on_iff (image : ImageData) (width x y : Z) :
  Forall uint8 (data image) ->
  let e := element (data image) ((width * y + x) * 4) in
  (getPixel image width x y = 1 <-> e = Some 0) /\
  (e = None -> getPixel image width x y = 0) /\
  (forall height,
     List.length (data image) = Z.to_nat (width * height * 4) ->
     0 <= x < width -> 0 <= height <= y ->
     getPixel image width x y = 0).
Proof.
  intros Hdata e.
  assert (Hnone : e = None -> getPixel image width x y = 0).
  { intros He. unfold getPixel. fold e. rewrite He. reflexivity. }
  split; [| split; [exact Hnone |]].
  - unfold getPixel. fold e. destruct e as [v |] eqn:He; simpl.
    + pose proof (element_uint8 _ _ _ Hdata He) as Hv. unfold uint8 in Hv.
      destruct (Z.gtb_spec v 0); split; intros Heq; try discriminate.
      * injection Heq as ->. lia.
      * f_equal. lia.
      * reflexivity.
    + split; discriminate.
  - intros height Hlen Hx Hy. apply Hnone. subst e.
    eapply element_below; eassumption.
Qed.

(** C1 as stated fails outside the buffer: in a 1 x 1 black image the
    coordinate (0, 1) is outside and is sampled as off. *)
Lemma getPixel_outside_is_off :
  let image := {| data := [0; 0; 0; 255] |} in
  let e := element (data image) ((1 * 1 + 0) * 4) in
  e = None /\ ~ (getPixel image 1 0 1 = 1 <-> e = Some 0 \/ e = None).
Proof.
  split; [reflexivity |]. intros [_ H].
  discriminate (H (or_intror eq_refl)).
Qed.

(** ** [image]: bands *)

Lemma pack_bits (b0 b1 b2 b3 b4 b5 b6 b7 : Z) :
  (b0 = 0 \/ b0 = 1) -> (b1 = 0 \/ b1 = 1) -> (b2 = 0 \/ b2 = 1) -> (b3 = 0 \/ b3 = 1) ->
  (b4 = 0 \/ b4 = 1) -> (b5 = 0 \/ b5 = 1) -> (b6 = 0 \/ b6 = 1) -> (b7 = 0 \/ b7 = 1) ->
  (b0 << 7 .| b1 << 6 .| b2 << 5 .| b3 << 4 .| b4 << 3 .| b5 << 2 .| b6 << 1 .| b7)%js
  = 128 * b0 + 64 * b1 + 32 * b2 + 16 * b3 + 8 * b4 + 4 * b5 + 2 * b6 + b7.
Proof.
  intros [-> | ->] [-> | ->] [-> | ->] [-> | ->] [-> | ->] [-> | ->] [-> | ->] [-> | ->];
    vm_compute; reflexivity.
Qed.

Lemma bits_range (b0 b1 b2 b3 b4 b5 b6 b7 : Z) :
  (b0 = 0 \/ b0 = 1) -> (b1 = 0 \/ b1 = 1) -> (b2 = 0 \/ b2 = 1) -> (b3 = 0 \/ b3 = 1) ->
  (b4 = 0 \/ b4 = 1) -> (b5 = 0 \/ b5 = 1) -> (b6 = 0 \/ b6 = 1) -> (b7 = 0 \/ b7 = 1) ->
  0 <= 128 * b0 + 64 * b1 + 32 * b2 + 16 * b3 + 8 * b4 + 4 * b5 + 2 * b6 + b7 < 256.
Proof. lia. Qed.

Lemma spec_packed_range (image : ImageData) (width x y : Z) :
  0 <= spec_packed image width x y < 256.
Proof. unfold spec_packed. apply bits_range; apply getPixel_bit. Qed.

(** Bit [7 - k] of the packed byte is the pixel of row [y + k]. *)
Lemma spec_packed_testbit (image : ImageData) (width x y k : Z) :
  0 <= k < 8 ->
  Z.testbit (spec_packed image width x y) (7 - k)
  = bool_decide (getPixel image width x (y + k) = 1).
Proof.
  intros Hk. unfold spec_packed.
  assert (Hcases : k = 0 \/ k = 1 \/ k = 2 \/ k = 3 \/ k = 4 \/ k = 5 \/ k = 6 \/ k = 7)
    by lia.
  replace (getPixel image width x y) with (getPixel image width x (y + 0))
    by (f_equal; lia).
  generalize (getPixel_bit image width x (y + 0)) (getPixel_bit image width x (y + 1))
             (getPixel_bit image width x (y + 2)) (getPixel_bit image width x (y + 3))
             (getPixel_bit image width x (y + 4)) (getPixel_bit image width x (y + 5))
             (getPixel_bit image width x (y + 6)) (getPixel_bit image width x (y + 7)).
  decompose [or] Hcases; subst k; clear;
    generalize (getPixel image width x (y + 0)) (getPixel image width x (y + 1))
               (getPixel image width x (y + 2)) (getPixel image width x (y + 3))
               (getPixel image width x (y + 4)) (getPixel image width x (y + 5))
               (getPixel image width x (y + 6)) (getPixel image width x (y + 7));
    intros b0 b1 b2 b3 b4 b5 b6 b7;
    intros [-> | ->] [-> | ->] [-> | ->] [-> | ->] [-> | ->] [-> | ->] [-> | ->] [-> | ->];
    reflexivity.
Qed.

(** Three consecutive writes into the zero-filled rest of the buffer. *)
Lemma store_three (pre : list Z) (a b c : Z) (k : nat) :
  <[S (S (List.length pre)) := c]>
    (<[S (List.length pre) := b]>
       (<[List.length pre := a]> (pre ++ replicate (3 * S k) 0)))
  = (pre ++ [a; b; c]) ++ replicate (3 * k) 0.
Proof.
  replace (3 * S k)%nat with (S (S (S (3 * k)))) by lia.
  induction pre as [| p pre IH]; simpl.
  - reflexivity.
  - f_equal. exact IH.
Qed.

(** One round of the loop over the columns fills in the three bytes of
    column [x]. *)
Lemma column_spec (image : ImageData) (width y x : Z) (pre : list Z) (k : nat) :
  0 <= x -> List.length pre = Z.to_nat (x * 3) ->
  column image width y x (pre ++ replicate (3 * S k) 0)
  = (pre ++ spec_column image width y x) ++ replicate (3 * k) 0.
Proof.
  intros Hx Hpre. unfold column, store.
  destruct (Z.ltb_spec (x * 3) 0); [lia |].
  destruct (Z.ltb_spec (x * 3 + 1) 0); [lia |].
  destruct (Z.ltb_spec (x * 3 + 2) 0); [lia |].
  rewrite !pack_bits by apply getPixel_bit.
  replace (Z.to_nat (x * 3)) with (List.length pre) by lia.
  replace (Z.to_nat (x * 3 + 1)) with (S (List.length pre)) by lia.
  replace (Z.to_nat (x * 3 + 2)) with (S (S (List.length pre))) by lia.
  rewrite store_three. unfold spec_column, spec_packed.
  rewrite !Z.mod_small by (apply bits_range; apply getPixel_bit).
  rewrite Z.add_0_r.
  repeat match goal with
         | |- context [y + ?a + ?b] =>
             let c := eval vm_compute in (a + b) in
             replace (y + a + b) with (y + c) by lia
         end.
  reflexivity.
Qed.

(** The loop over the columns, started at column [i] with the bytes of the
    columns before [i] in place, fills in the remaining [k] columns. *)
Lemma rounds_column (image : ImageData) (width y : Z) (k : nat) :
  forall (i : Z) (pre : list Z),
    0 <= i -> List.length pre = Z.to_nat (i * 3) ->
    rounds (fun x bytes => Return (column image width y x bytes)) i k
      (pre ++ replicate (3 * k) 0)
    = Return (pre ++ concat (map (spec_column image width y) (seqZ i (Z.of_nat k)))).
Proof.
  induction k as [| k IH]; intros i pre Hi Hpre.
  - simpl. reflexivity.
  - cbn [rounds mbind completion_bind]. rewrite column_spec by assumption.
    rewrite IH; [| lia |].
    + rewrite (seqZ_cons i (Z.of_nat (S k))) by lia.
      replace (Z.pred (Z.of_nat (S k))) with (Z.of_nat k) by lia.
      replace (Z.succ i) with (i + 1) by lia.
      cbn [map concat]. rewrite <- app_assoc. reflexivity.
    + rewrite length_app, Hpre. simpl. lia.
Qed.

(** With a width that is not negative a band is appended whole. *)
Lemma band_returns (image : ImageData) (width s : Z) (result : array) :
  0 <= width ->
  band image width s result = Return (result ++ spec_band image width s).
Proof.
  intros Hw. unfold band, new_Uint8Array.
  destruct (Z.ltb_spec (width * 3) 0); [lia |].
  cbn [mbind completion_bind].
  rewrite for_lt_rounds. rewrite Qceiling_Z, Z.sub_0_r.
  replace (Z.to_nat (width * 3)) with (3 * Z.to_nat width)%nat by lia.
  pose proof (rounds_column image width (s * 24) (Z.to_nat width) 0 []
                ltac:(lia) ltac:(reflexivity)) as Hcols.
  cbn [app] in Hcols. rewrite Hcols.
  cbn [mbind completion_bind app].
  rewrite Z2Nat.id by lia.
  rewrite bit_and_0xff, bit_and_sar8_0xff. reflexivity.
Qed.

(** With a negative width the first band throws. *)
Lemma band_throws (image : ImageData) (width s : Z) (result : array) :
  width < 0 ->
  band image width s result = Throw (RangeError "Invalid typed array length").
Proof.
  intros Hw. unfold band, new_Uint8Array.
  destruct (Z.ltb_spec (width * 3) 0); [reflexivity | lia].
Qed.

Lemma rounds_band (image : ImageData) (width : Z) (k : nat) :
  0 <= width ->
  forall (i : Z) (result : array),
    rounds (band image width) i k result
    = Return (result ++ concat (map (spec_band image width) (seqZ i (Z.of_nat k)))).
Proof.
  intros Hw. induction k as [| k IH]; intros i result.
  - simpl. rewrite app_nil_r. reflexivity.
  - cbn [rounds]. rewrite band_returns by assumption.
    cbn [mbind completion_bind]. rewrite IH.
    rewrite (seqZ_cons i (Z.of_nat (S k))) by lia.
    replace (Z.pred (Z.of_nat (S k))) with (Z.of_nat k) by lia.
    replace (Z.succ i) with (i + 1) by lia.
    cbn [map concat]. rewrite <- app_assoc. reflexivity.
Qed.

(** [image] runs the band loop once for every band of [spec_bands]. *)
Lemma image_rounds (image0 : ImageData) (width height : Z) (mode : val) :
  image image0 width height mode
  = (result ← rounds (band image0 width) 0 (Z.to_nat ((height + 23) / 24))
               (literal [0x1b; 0x30]);
     Return (result ++ literal [0x1b; 0x7a; 0x01])).
Proof.
  unfold image. rewrite for_lt_rounds, Qceiling_div by lia.
  rewrite Z.sub_0_r. replace (height + 24 - 1) with (height + 23) by lia.
  reflexivity.
Qed.

Lemma image_returns (image0 : ImageData) (width height : Z) (mode : val) :
  0 <= width ->
  image image0 width height mode
  = Return (literal [0x1b; 0x30]
            ++ concat (map (spec_band image0 width) (spec_bands height))
            ++ literal [0x1b; 0x7a; 0x01]).
Proof.
  intros Hw. rewrite image_rounds, rounds_band by assumption.
  cbn [mbind completion_bind]. unfold spec_bands.
  destruct (Z.le_gt_cases 0 ((height + 23) / 24)) as [Hk | Hk].
  - rewrite Z2Nat.id by assumption. rewrite <- app_assoc. reflexivity.
  - replace (Z.to_nat ((height + 23) / 24)) with 0%nat by lia.
    rewrite (seqZ_nil 0 ((height + 23) / 24)) by lia.
    rewrite <- app_assoc. reflexivity.
Qed.

Lemma image_no_rows (image0 : ImageData) (width height : Z) (mode : val) :
  height <= 0 ->
  image image0 width height mode = Return (literal [0x1b; 0x30; 0x1b; 0x7a; 0x01]).
Proof.
  intros Hh. rewrite image_rounds.
  assert ((height + 23) / 24 <= 0).
  { destruct (Z.le_gt_cases ((height + 23) / 24) 0) as [Hk | Hk]; [exact Hk |].
    pose proof (Z.mul_div_le (height + 23) 24 ltac:(lia)). lia. }
  replace (Z.to_nat ((height + 23) / 24)) with 0%nat by lia.
  reflexivity.
Qed.

Lemma image_throws (image0 : ImageData) (width height : Z) (mode : val) :
  width < 0 -> 0 < height ->
  image image0 width height mode = Throw (RangeError "Invalid typed array length").
Proof.
  intros Hw Hh. rewrite image_rounds.
  assert (1 <= (height + 23) / 24) by (apply Z.div_le_lower_bound; lia).
  destruct (Z.to_nat ((height + 23) / 24)) as [| k] eqn:Hk; [lia |].
  cbn [rounds]. rewrite band_throws by assumption. reflexivity.
Qed.

(** C6: with a width that is not negative, [image] returns the prologue, one
    band sub-command for every band, and the closing sub-command.  A band
    sub-command is [0x1b 0x58], the two low bytes of the width (low byte
    first), three bytes for every column [x] of [0 .. width - 1], and the
    pair [0x0a 0x0d].  The three bytes pack rows 0..7, 8..15 and 16..23 of
    the band; bit [7 - k] of a byte is the pixel of its row [k], so the top
    row is the most significant bit.  The 1 x 24 black image gives one band
    with the three bytes [0xff]. *)
Theorem image_band_layout (image0 : ImageData) (width height : Z) (mode : val) :
  0 <= width ->
  image image0 width height mode
  = Return (literal [0x1b; 0x30]
            ++ concat (map (spec_band image0 width) (spec_bands height))
            ++ literal [0x1b; 0x7a; 0x01])
  /\ (forall s,
        spec_band image0 width s
        = literal [0x1b; 0x58; width mod 256; width / 256 mod 256]
          ++ literal (concat (map (fun x => [spec_packed image0 width x (s * 24);
                                             spec_packed image0 width x (s * 24 + 8);
                                             spec_packed image0 width x (s * 24 + 16)])
                                  (seqZ 0 width)))
          ++ literal [0x0a; 0x0d])
  /\ width mod 256 + 256 * (width / 256 mod 256) = width mod 65536
  /\ (forall x y k,
        0 <= k < 8 ->
        Z.testbit (spec_packed image0 width x y) (7 - k)
        = bool_decide (getPixel image0 width x (y + k) = 1))
  /\ (forall x y, 0 <= spec_packed image0 width x y < 256)
  /\ image black_column 1 24 mode
     = Return (literal [0x1b; 0x30;
                        0x1b; 0x58; 1; 0; 0xff; 0xff; 0xff; 0x0a; 0x0d;
                        0x1b; 0x7a; 0x01]).
Proof.
  intros Hw.
  split; [apply image_returns; exact Hw |].
  split; [reflexivity |].
  split; [apply little_endian_16 |].
  split; [intros x y k; apply spec_packed_testbit |].
  split; [intros x y; apply spec_packed_range |].
  rewrite image_returns by lia. reflexivity.
Qed.



(** In a last, partial band the rows below the image are sampled as off: a
    second band of the 1 x 24 black image is all zero. *)
Lemma image_partial_band (mode : val) :
  image black_column 1 25 mode
  = Return (literal [0x1b; 0x30;
                     0x1b; 0x58; 1; 0; 0xff; 0xff; 0xff; 0x0a; 0x0d;
                     0x1b; 0x58; 1; 0; 0x00; 0x00; 0x00; 0x0a; 0x0d;
                     0x1b; 0x7a; 0x01]).
Proof. rewrite image_returns by lia. reflexivity. Qed.

(** ** Purity of the operations: the methods on a heap *)

Lemma heap_loop_rounds bound (body : Z -> Heap.M unit) i h :
  Heap.loop bound body i h = heap_rounds body i (Z.to_nat (Qceiling bound - i)) h.
Proof.
  remember (Z.to_nat (Qceiling bound - i)) as k eqn:Hk.
  revert i h Hk. induction k as [| k IH]; intros i h Hk;
    rewrite Heap.loop_equation_1;
    destruct (Qlt_le_dec (inject_Z i) bound) as [Hlt | Hge]; cbn [heap_rounds].
  - pose proof (proj2 (Qceiling_gt bound i) Hlt). lia.
  - reflexivity.
  - simpl. destruct (body i h) as [[[] | e] h']; simpl; [| reflexivity].
    apply IH. lia.
  - exfalso. assert (Hi : i < Qceiling bound) by lia.
    pose proof (proj1 (Qceiling_gt bound i) Hi). eapply Qlt_not_le; eassumption.
Qed.

Lemma heap_bind {A B} (m : Heap.M A) (k : A -> Heap.M B) (h : Heap.heap) :
  (m ≫= k) h
  = match m h with
    | (Return a, h') => k a h'
    | (Throw e, h') => (Throw e, h')
    end.
Proof. reflexivity. Qed.

(** The objects made during a call come after the heap [h] of its start. *)
Section Made.

Variables (h made : Heap.heap).

Lemma heap_lookup_made (i : nat) : (h ++ made) !! (List.length h + i)%nat = made !! i.
Proof.
  rewrite lookup_app_r by lia. f_equal. lia.
Qed.

Lemma heap_array_of_made (i : nat) :
  Heap.array_of (h ++ made) (List.length h + i)%nat = Heap.array_of made i.
Proof. unfold Heap.array_of. rewrite heap_lookup_made. reflexivity. Qed.

Lemma heap_bytes_of_made (i : nat) :
  Heap.bytes_of (h ++ made) (List.length h + i)%nat = Heap.bytes_of made i.
Proof. unfold Heap.bytes_of. rewrite heap_lookup_made. reflexivity. Qed.

Lemma heap_table_of_made (i : nat) :
  Heap.table_of (h ++ made) (List.length h + i)%nat = Heap.table_of made i.
Proof. unfold Heap.table_of. rewrite heap_lookup_made. reflexivity. Qed.

Lemma heap_bytes_of_old (r : Heap.ref) :
  (r < List.length h)%nat -> Heap.bytes_of (h ++ made) r = Heap.bytes_of h r.
Proof. intros Hr. unfold Heap.bytes_of. rewrite lookup_app_l by exact Hr. reflexivity. Qed.

Lemma heap_alloc (o : Heap.object) :
  Heap.alloc o (h ++ made)
  = (Return (List.length h + List.length made)%nat, h ++ (made ++ [o])).
Proof. unfold Heap.alloc. rewrite length_app, <- app_assoc. reflexivity. Qed.

Lemma heap_push (i : nat) (vs : array) :
  Heap.push (List.length h + i)%nat vs (h ++ made)
  = (Return tt, h ++ <[i := Heap.Array (Heap.array_of made i ++ vs)]> made).
Proof. unfold Heap.push. rewrite heap_array_of_made, insert_app_r. reflexivity. Qed.

Lemma heap_set_byte (j : nat) (i v : Z) :
  Heap.set_byte (List.length h + j)%nat i v (h ++ made)
  = (Return tt, h ++ <[j := Heap.Uint8Array (store (Heap.bytes_of made j) i v)]> made).
Proof. unfold Heap.set_byte. rewrite heap_bytes_of_made, insert_app_r. reflexivity. Qed.

Lemma heap_spread (j : nat) :
  Heap.spread (List.length h + j)%nat (h ++ made) = (Return (Heap.bytes_of made j), h ++ made).
Proof. unfold Heap.spread. rewrite heap_bytes_of_made. reflexivity. Qed.

Lemma heap_property (i : nat) (k : val) :
  Heap.property (List.length h + i)%nat k (h ++ made)
  = (Return (get (Heap.table_of made i) k), h ++ made).
Proof. unfold Heap.property. rewrite heap_table_of_made. reflexivity. Qed.

Lemma heap_has (i : nat) (k : val) :
  Heap.has k (List.length h + i)%nat (h ++ made)
  = (Return (has_property (Heap.table_of made i) k), h ++ made).
Proof. unfold Heap.has. rewrite heap_table_of_made. reflexivity. Qed.

(** A read of an object that was there before the call. *)
Lemma heap_getPixel (image : Heap.ref) (width x y : Z) :
  (image < List.length h)%nat ->
  Heap.getPixel image width x y (h ++ made)
  = (Return (getPixel {| data := Heap.bytes_of h image |} width x y), h ++ made).
Proof.
  intros Himage. unfold Heap.getPixel, Heap.element_at, getPixel.
  rewrite heap_bind. rewrite heap_bytes_of_old by exact Himage. cbn [data].
  destruct (element (Heap.bytes_of h image) ((width * y + x) * 4)) as [v |] eqn:He;
    cbn [is_undefined greater orb]; [| reflexivity].
  rewrite heap_bind. rewrite heap_bytes_of_old by exact Himage. rewrite He.
  reflexivity.
Qed.

End Made.

Lemma heap_bytes_of_insert (made : Heap.heap) (j : nat) (b : list Z) :
  (j < List.length made)%nat ->
  Heap.bytes_of (<[j := Heap.Uint8Array b]> made) j = b.
Proof.
  intros Hj. unfold Heap.bytes_of. rewrite list_lookup_insert_eq by exact Hj. reflexivity.
Qed.

Section ImageOnHeap.

Variables (h : Heap.heap) (image : Heap.ref) (width : Z).
Hypothesis image_old : (image < List.length h)%nat.

Let image0 : ImageData := {| data := Heap.bytes_of h image |}.

(** One round of the loop over the columns writes what [column] writes. *)
Lemma heap_column (made : Heap.heap) (j : nat) (b : list Z) (y x : Z) :
  made !! j = Some (Heap.Uint8Array b) ->
  Heap.column image (List.length h + j)%nat width y x (h ++ made)
  = (Return tt, h ++ <[j := Heap.Uint8Array (column image0 width y x b)]> made).
Proof.
  intros Hj. pose proof (lookup_lt_Some _ _ _ Hj) as Hlt.
  assert (Hb : Heap.bytes_of made j = b) by (unfold Heap.bytes_of; rewrite Hj; reflexivity).
  unfold Heap.column.
  do 8 (rewrite heap_bind, heap_getPixel by exact image_old).
  rewrite heap_bind, heap_set_byte, Hb.
  do 8 (rewrite heap_bind, heap_getPixel by exact image_old).
  rewrite heap_bind, heap_set_byte, heap_bytes_of_insert, list_insert_insert_eq
    by exact Hlt.
  do 8 (rewrite heap_bind, heap_getPixel by exact image_old).
  rewrite heap_set_byte, heap_bytes_of_insert, list_insert_insert_eq by exact Hlt.
  reflexivity.
Qed.

(** The loop over the columns leaves in the typed array what the loop of
    [band] computes. *)
Lemma heap_rounds_column (y : Z) (k : nat) :
  forall (i : Z) (made : Heap.heap) (j : nat) (b : list Z),
    made !! j = Some (Heap.Uint8Array b) ->
    exists b' : list Z,
      rounds (fun x bytes => Return (column image0 width y x bytes)) i k b = Return b'
      /\ heap_rounds (Heap.column image (List.length h + j)%nat width y) i k (h ++ made)
         = (Return tt, h ++ <[j := Heap.Uint8Array b']> made).
Proof.
  induction k as [| k IH]; intros i made j b Hj.
  - exists b. split; [reflexivity |]. cbn [heap_rounds].
    rewrite list_insert_id by exact Hj. reflexivity.
  - cbn [rounds heap_rounds mbind completion_bind].
    rewrite (heap_column made j b) by exact Hj.
    pose proof (lookup_lt_Some _ _ _ Hj) as Hlt.
    destruct (IH (i + 1) (<[j := Heap.Uint8Array (column image0 width y i b)]> made) j
                 (column image0 width y i b)) as (b' & Hpure & Hheap).
    { apply list_lookup_insert_eq. exact Hlt. }
    exists b'. split; [exact Hpure |].
    rewrite Hheap, list_insert_insert_eq. reflexivity.
Qed.

(** A band on the heap: a throw leaves the result as it was, otherwise the
    result is the one of [band] and a typed array has been made. *)
Lemma heap_band (s : Z) (result : array) (rest : Heap.heap) :
  exists rest' : Heap.heap,
    Heap.band image (List.length h + 0)%nat width s (h ++ Heap.Array result :: rest)
    = match band image0 width s result with
      | Return result' => (Return tt, h ++ Heap.Array result' :: rest')
      | Throw e => (Throw e, h ++ Heap.Array result :: rest')
      end.
Proof.
  unfold Heap.band, band, Heap.new_Uint8Array, new_Uint8Array.
  destruct (width * 3 <? 0).
  { exists rest. reflexivity. }
  cbn [mbind completion_bind].
  rewrite heap_bind, heap_alloc. cbn [List.length].
  rewrite heap_bind, heap_loop_rounds, for_lt_rounds.
  set (k := Z.to_nat (Qceiling (inject_Z width) - 0)).
  set (zeros := replicate (Z.to_nat (width * 3)) 0).
  destruct (heap_rounds_column (s * 24) k 0
              ((Heap.Array result :: rest) ++ [Heap.Uint8Array zeros])
              (S (List.length rest)) zeros) as (b' & Hpure & Hheap).
  { apply (list_lookup_middle (Heap.Array result :: rest) []). reflexivity. }
  rewrite Hpure, Hheap. cbn [mbind completion_bind].
  assert (Hlt : (S (List.length rest)
                 < List.length ((Heap.Array result :: rest) ++ [Heap.Uint8Array zeros]))%nat)
    by (rewrite length_app; simpl; lia).
  rewrite heap_bind, heap_spread, heap_bytes_of_insert by exact Hlt.
  rewrite heap_push.
  exists (rest ++ [Heap.Uint8Array b']). f_equal. f_equal.
  change (S (List.length rest)) with (List.length (Heap.Array result :: rest)).
  rewrite (insert_app_r_alt (Heap.Array result :: rest)) by lia.
  rewrite Nat.sub_diag. reflexivity.
Qed.

(** The loop over the bands. *)
Lemma heap_rounds_band (k : nat) :
  forall (i : Z) (result : array) (rest : Heap.heap),
    exists (result_end : array) (rest' : Heap.heap),
      snd (heap_rounds (Heap.band image (List.length h + 0)%nat width) i k
             (h ++ Heap.Array result :: rest))
      = h ++ Heap.Array result_end :: rest'
      /\ match rounds (band image0 width) i k result with
         | Return result' =>
             fst (heap_rounds (Heap.band image (List.length h + 0)%nat width) i k
                    (h ++ Heap.Array result :: rest)) = Return tt
             /\ result_end = result'
         | Throw e =>
             fst (heap_rounds (Heap.band image (List.length h + 0)%nat width) i k
                    (h ++ Heap.Array result :: rest)) = Throw e
         end.
Proof.
  induction k as [| k IH]; intros i result rest.
  - exists result, rest. cbn [heap_rounds rounds]. repeat split.
  - cbn [heap_rounds rounds].
    destruct (heap_band i result rest) as [rest1 Hband]. rewrite Hband.
    destruct (band image0 width i result) as [result1 | e]; cbn [mbind completion_bind].
    + apply IH.
    + exists result, rest1. split; reflexivity.
Qed.

End ImageOnHeap.

Lemma computes_literal (h : Heap.heap) (out : array) :
  computes (Heap.alloc (Heap.Array out) h) h (Return out).
Proof. exists [Heap.Array out]. repeat split. Qed.

Section Refinement.

Variable encode : string -> string -> list Z.

Lemma heap_barcode (value : string) (symbology height : val) (h : Heap.heap) :
  computes (Heap.barcode encode value symbology height h) h
    (barcode encode value symbology height).
Proof.
  unfold Heap.barcode, barcode.
  rewrite <- (app_nil_r h) at 1.
  rewrite heap_bind, heap_alloc. cbn [List.length app].
  rewrite heap_bind, heap_alloc. cbn [List.length app].
  rewrite heap_bind, heap_property.
  change (Heap.table_of [Heap.Array []; Heap.Table symbologies] 1) with symbologies.
  destruct (String.eqb (typeof (get symbologies symbology)) "undefined").
  - eexists. split; reflexivity.
  - rewrite heap_bind, heap_property, heap_bind, heap_push.
    eexists. split; [reflexivity |]. split; [cbn; f_equal; lia | reflexivity].
Qed.

Lemma heap_qrcode (value : string) (model size errorlevel : val) (h : Heap.heap) :
  computes (Heap.qrcode encode value model size errorlevel h) h
    (qrcode encode value model size errorlevel).
Proof.
  unfold Heap.qrcode, qrcode.
  set (model' := if String.eqb (typeof model) "undefined" then Num 2 else model).
  set (size' := if String.eqb (typeof size) "undefined" then Num 6 else size).
  set (errorlevel' :=
         if String.eqb (typeof errorlevel) "undefined" then Str "m" else errorlevel).
  rewrite <- (app_nil_r h) at 1.
  rewrite heap_bind, heap_alloc. cbn [List.length app].
  rewrite heap_bind, heap_alloc. cbn [List.length app].
  rewrite heap_bind, heap_has.
  change (Heap.table_of [Heap.Array []; Heap.Table models] 1) with models.
  destruct (has_property models model'); cbn [mbind completion_bind];
    [| rewrite heap_bind; eexists; split; reflexivity].
  rewrite !heap_bind, heap_property, heap_push.
  change (Heap.table_of [Heap.Array []; Heap.Table models] 1) with models.
  cbn [Heap.array_of lookup list_lookup insert list_insert app].
  destruct size' as [| | b | n | s | name];
    try (eexists; split; reflexivity).
  cbn [mbind completion_bind]. rewrite heap_bind. cbn [mret Heap.M_ret].
  rewrite heap_bind.
  destruct ((n <? 1) || (n >? 8)); cbn [mbind completion_bind];
    [eexists; split; reflexivity |].
  cbn [mret Heap.M_ret].
  rewrite heap_bind, heap_push.
  cbn [Heap.array_of lookup list_lookup insert list_insert app].
  rewrite heap_bind, heap_alloc. cbn [List.length app].
  rewrite heap_bind, heap_has.
  change (Heap.table_of [Heap.Array _; Heap.Table models; Heap.Table errorlevels] 2)
    with errorlevels.
  destruct (has_property errorlevels errorlevel'); cbn [mbind completion_bind];
    [| rewrite heap_bind; eexists; split; reflexivity].
  rewrite !heap_bind, heap_property, heap_push.
  change (Heap.table_of [Heap.Array _; Heap.Table models; Heap.Table errorlevels] 2)
    with errorlevels.
  cbn [Heap.array_of lookup list_lookup insert list_insert app].
  rewrite heap_bind, heap_push.
  cbn [Heap.array_of lookup list_lookup insert list_insert].
  rewrite heap_bind, heap_push.
  cbn [Heap.array_of lookup list_lookup insert list_insert].
  eexists. split; [reflexivity |].
  split; [cbn; f_equal; lia | reflexivity].
Qed.

Lemma heap_image (image0 : Heap.ref) (width height : Z) (mode : val) (h : Heap.heap) :
  (image0 < List.length h)%nat ->
  computes (Heap.image image0 width height mode h) h
    (image {| data := Heap.bytes_of h image0 |} width height mode).
Proof.
  intros Hold. unfold Heap.image. rewrite image_rounds.
  rewrite <- (app_nil_r h) at 1.
  rewrite heap_bind, heap_alloc. cbn [List.length app].
  rewrite heap_bind, heap_push.
  cbn [Heap.array_of lookup list_lookup insert list_insert app].
  rewrite heap_bind, heap_loop_rounds, Qceiling_div, Z.sub_0_r by lia.
  replace (height + 24 - 1) with (height + 23) by lia.
  destruct (heap_rounds_band h image0 width Hold (Z.to_nat ((height + 23) / 24)) 0
              (literal [0x1b; 0x30]) []) as (result_end & rest' & Hsnd & Hfst).
  cbv zeta in Hsnd, Hfst.
  destruct (heap_rounds _ _ _ _) as [outcome h'] eqn:Hrun.
  cbn [fst snd] in Hsnd, Hfst. subst h'.
  destruct (rounds _ _ _ _) as [result' | e]; cbn [mbind completion_bind].
  - destruct Hfst as [-> ->].
    rewrite heap_bind, heap_push.
    cbn [Heap.array_of lookup list_lookup insert list_insert].
    eexists. split; [reflexivity |]. split; [cbn; f_equal; lia | reflexivity].
  - rewrite Hfst. eexists. split; reflexivity.
Qed.

(** Every method on the heap computes the function of the encoder. *)
Lemma heap_invoke (c : Heap.call) (h : Heap.heap) :
  valid h c ->
  computes (Heap.invoke encode c h) h (perform encode (view h c)).
Proof.
  destruct c; cbn [valid Heap.invoke view perform]; intros Hvalid;
    try apply computes_literal.
  - apply heap_barcode.
  - apply heap_qrcode.
  - apply heap_image. exact Hvalid.
Qed.

Lemma computes_observe run h outcome : computes run h outcome -> observe run = outcome.
Proof.
  intros (made & Hsnd & Hout). destruct run as [o h']. cbn [fst snd] in *. subst h'.
  destruct outcome as [out | e].
  - destruct Hout as [-> Hmade]. cbn [observe]. f_equal.
    unfold Heap.array_of. rewrite lookup_app_r by lia.
    rewrite Nat.sub_diag, Hmade. reflexivity.
  - rewrite Hout. reflexivity.
Qed.

Lemma view_extended (h made : Heap.heap) (c : Heap.call) :
  valid h c -> valid (h ++ made) c /\ view (h ++ made) c = view h c.
Proof.
  destruct c; cbn [valid view]; intros Hvalid; try (split; [exact I | reflexivity]).
  split; [rewrite length_app; lia |].
  rewrite heap_bytes_of_old by exact Hvalid. reflexivity.
Qed.

End Refinement.

Section Calls.

Variable encode : string -> string -> list Z.

(** C9: a call on the heap, with the references among its arguments
    denoting objects of the heap, changes no object that was there, returns
    a new array, and what it returns or throws is the function [perform] of
    the arguments as it reads them.  So the same call made again, right
    after or on any heap where its arguments read the same, has the same
    outcome in another new array. *)
Theorem calls_are_pure (c : Heap.call) (h : Heap.heap) :
  valid h c ->
  (exists made : Heap.heap, snd (Heap.invoke encode c h) = h ++ made)
  /\ observe (Heap.invoke encode c h) = perform encode (view h c)
  /\ (forall r, fst (Heap.invoke encode c h) = Return r -> r = List.length h)
  /\ observe (Heap.invoke encode c (snd (Heap.invoke encode c h)))
     = observe (Heap.invoke encode c h)
  /\ (forall r1 r2,
        fst (Heap.invoke encode c h) = Return r1 ->
        fst (Heap.invoke encode c (snd (Heap.invoke encode c h))) = Return r2 ->
        r1 <> r2)
  /\ (forall h2 : Heap.heap,
        valid h2 c -> view h2 c = view h c ->
        observe (Heap.invoke encode c h2) = observe (Heap.invoke encode c h)).
Proof.
  intros Hvalid.
  pose proof (heap_invoke encode c h Hvalid) as Hrun.
  pose proof (computes_observe _ _ _ Hrun) as Hobs.
  destruct Hrun as (made & Hsnd & Hout).
  destruct (view_extended h made c Hvalid) as [Hvalid' Hview'].
  pose proof (heap_invoke encode c (h ++ made) Hvalid') as Hrun'.
  rewrite Hview' in Hrun'.
  pose proof (computes_observe _ _ _ Hrun') as Hobs'.
  split; [exists made; exact Hsnd |].
  split; [exact Hobs |].
  split.
  { intros r Hr. destruct (perform encode (view h c)) as [out | e].
    - destruct Hout as [Hfst _]. congruence.
    - congruence. }
  rewrite Hsnd.
  split; [rewrite Hobs, Hobs'; reflexivity |].
  split.
  { intros r1 r2 H1 H2. destruct Hrun' as (made' & _ & Hout').
    destruct (perform encode (view h c)) as [out | e].
    - destruct Hout as [Hfst Hmade], Hout' as [Hfst' _].
      assert (r1 = List.length h) by congruence.
      assert (r2 = List.length (h ++ made)) by congruence.
      subst r1 r2. rewrite length_app.
      apply lookup_lt_Some in Hmade. lia.
    - congruence. }
  intros h2 Hvalid2 Hview2.
  rewrite (computes_observe _ _ _ (heap_invoke encode c h2 Hvalid2)), Hview2, Hobs.
  reflexivity.
Qed.

End Calls.

(** * The properties at concrete inputs *)


(** [qrcode_stages] with the three defaults. *)
Lemma qrcode_stages_witness :
  exists lo hi : Z,
    0 <= lo < 256 /\ 0 <= hi < 256 /\ lo + 256 * hi = 4 mod 65536 /\
    qrcode char_codes "TEST" Undefined Undefined Undefined
    = Return (model_command (Num 2) ++ size_command (Num 6) ++ level_command (Num 1)
              ++ store_command lo hi (char_codes "TEST" "iso8859-1") ++ print_command).
Proof.
  apply (qrcode_stages char_codes "TEST" Undefined Undefined Undefined 2 6 1).
  - left. split; reflexivity.
  - left. split; reflexivity.
  - left. split; reflexivity.
Defined.

(** [getPixel_on_iff] on the one pixel of a 1 x 1 black image. *)
Lemma getPixel_on_iff_witness :
  Forall uint8 [0; 0; 0; 255]
  /\ (getPixel {| data := [0; 0; 0; 255] |} 1 0 0 = 1
      <-> element [0; 0; 0; 255] ((1 * 0 + 0) * 4) = Some 0).
Proof.
  assert (H : Forall uint8 (data {| data := [0; 0; 0; 255] |}))
    by (repeat constructor; unfold uint8; lia).
  split; [exact H |].
  exact (proj1 (getPixel_on_iff {| data := [0; 0; 0; 255] |} 1 0 0 H)).
Defined.

(** [image_band_layout] on a 2 x 13 reading of the black buffer. *)
Lemma image_band_layout_witness :
  0 <= 2
  /\ image black_column 2 13 Undefined
     = Return (literal [0x1b; 0x30]
               ++ concat (map (spec_band black_column 2) (spec_bands 13))
               ++ literal [0x1b; 0x7a; 0x01]).
Proof.
  assert (H : 0 <= 2) by lia.
  split; [exact H |].
  exact (proj1 (image_band_layout black_column 2 13 Undefined H)).
Defined.


(** The sequences of the specification's examples. *)
Example qrcode_TEST :
  qrcode char_codes "TEST" Undefined Undefined Undefined
  = Return (literal [0x1b; 0x1d; 0x79; 0x53; 0x30; 2;
                     0x1b; 0x1d; 0x79; 0x53; 0x32; 6;
                     0x1b; 0x1d; 0x79; 0x53; 0x31; 1;
                     0x1b; 0x1d; 0x79; 0x44; 0x31; 0; 4; 0; 84; 69; 83; 84;
                     0x1b; 0x1d; 0x79; 0x50]).
Proof. reflexivity. Qed.

Example qrcode_model_3 :
  qrcode char_codes "TEST" (Num 3) Undefined Undefined
  = Throw (Error "Model must be 1 or 2").
Proof. reflexivity. Qed.

Example barcode_empty_value :
  barcode char_codes "" (Str "ean13") (Num 80)
  = Return (literal [0x1b; 0x62; 0x03; 0x01; 0x03; 80; 0x1e]).
Proof. reflexivity. Qed.

Example barcode_unknown_name :
  barcode char_codes "AB" (Str "qr") (Num 80)
  = Throw (Error "Symbology not supported by printer").
Proof. reflexivity. Qed.

Example cut_partial_or_full :
  cut (Str "partial") = literal [0x1b; 0x64; 0x01]
  /\ cut (Str "full") = literal [0x1b; 0x64; 0x00]
  /\ cut Undefined = cut (Str "full").
Proof. repeat split. Qed.

Example font_and_align :
  font (Str "B") = literal [0x1b; 0x1e; 0x46; 0x01]
  /\ font (Str "Z") = font (Str "A")
  /\ align (Str "right") = literal [0x1b; 0x1d; 0x61; 0x02]
  /\ align Undefined = align (Str "left").
Proof. repeat split. Qed.

(** * Further properties *)

(** ** The table of symbologies and [barcode] *)

Section BarcodeMore.

Variable encode : string -> string -> list Z.

Ltac table_entry H :=
  repeat (apply elem_of_cons in H as [H | H]; [injection H as -> -> |]);
  [.. | inversion H].

(** No number prints as the name of a symbology. *)
Lemma symbologies_number (n : Z) : symbologies !! number_to_string n = None.
Proof.
  destruct (symbologies !! number_to_string n) as [v |] eqn:Hv; [| reflexivity].
  apply elem_of_list_to_map_2 in Hv.
  pose proof (parse_number_to_string n) as Hp.
  repeat (apply elem_of_cons in Hv as [[= Hk _] | Hv];
          [rewrite Hk in Hp; vm_compute in Hp; discriminate |]).
  inversion Hv.
Qed.

(** The sequence [barcode] returns when the test of the symbology passes. *)
Lemma barcode_returned (value : string) (symbology height : val) (out : array) :
  barcode encode value symbology height = Return out ->
  typeof (get symbologies symbology) <> "undefined"
  /\ out = [Num 0x1b; Num 0x62; get symbologies symbology; Num 0x01; Num 0x03; height]
           ++ literal (encode value "ascii") ++ [Num 0x1e].
Proof.
  unfold barcode.
  destruct (String.eqb_spec (typeof (get symbologies symbology)) "undefined") as [He | Hne];
    [discriminate |].
  intros [= <-]. split; [exact Hne | reflexivity].
Qed.

(** X1: the codes of the table are pairwise distinct: two names with the
    same code are the same name, so the third element of a returned sequence
    identifies the symbology. *)
Theorem symbologies_injective (name1 name2 : string) (code : val) :
  symbologies !! name1 = Some code ->
  symbologies !! name2 = Some code ->
  name1 = name2.
Proof.
  intros H1 H2.
  apply elem_of_list_to_map_2 in H1. apply elem_of_list_to_map_2 in H2.
  table_entry H1;
    repeat (apply elem_of_cons in H2 as [H2 | H2];
            [first [discriminate H2 | injection H2 as ->; reflexivity] |]);
    inversion H2.
Qed.

(** X2: for a symbology given as a string, [barcode] throws exactly when the
    name is neither a key of the table nor a name inherited from
    [Object.prototype], and returns a sequence in every other case. *)
Theorem barcode_throws_iff (value name : string) (height : val) :
  (barcode encode value (Str name) height
   = Throw (Error "Symbology not supported by printer")
   <-> symbologies !! name = None /\ object_prototype !! name = None)
  /\ ((exists out, barcode encode value (Str name) height = Return out)
      <-> is_Some (symbologies !! name) \/ is_Some (object_prototype !! name)).
Proof.
  assert (Hcases :
    (symbologies !! name = None /\ object_prototype !! name = None
     /\ barcode encode value (Str name) height
        = Throw (Error "Symbology not supported by printer"))
    \/ ((is_Some (symbologies !! name) \/ is_Some (object_prototype !! name))
        /\ exists out, barcode encode value (Str name) height = Return out)).
  { destruct (symbologies !! name) as [c |] eqn:Hown.
    - right. split; [left; eauto |].
      destruct (symbologies_codes name c Hown) as (n & -> & _).
      unfold barcode, get. cbn [to_key]. rewrite Hown. eexists. reflexivity.
    - destruct (object_prototype !! name) as [v |] eqn:Hproto.
      + right. split; [right; eauto |].
        destruct (object_prototype_lookup _ _ Hproto) as [-> _].
        unfold barcode, get. cbn [to_key]. rewrite Hown, Hproto. cbn [default from_option id typeof].
        destruct (String.eqb name "__proto__"); eexists; reflexivity.
      + left. split; [reflexivity |]. split; [reflexivity |].
        unfold barcode, get. cbn [to_key]. rewrite Hown, Hproto. reflexivity. }
  destruct Hcases as [(Hown & Hproto & Hthrow) | [Hsome [out Hout]]]; split; split.
  - intros _. split; assumption.
  - intros _. exact Hthrow.
  - intros [out Hout]. rewrite Hthrow in Hout. discriminate.
  - rewrite Hown, Hproto. intros [[x Hx] | [x Hx]]; discriminate.
  - intros Hthrow. rewrite Hout in Hthrow. discriminate.
  - intros [Hown Hproto]. rewrite Hown, Hproto in Hsome.
    destruct Hsome as [[x Hx] | [x Hx]]; discriminate.
  - intros _. exact Hsome.
  - intros _. exists out. exact Hout.
Qed.

(** X3: a symbology that is omitted, [null], a boolean or a number is
    refused: its property key is no name of the table and no inherited
    name. *)
Theorem barcode_non_string_refused (value : string) (symbology height : val) :
  symbology = Undefined \/ symbology = Null
  \/ (exists b, symbology = Bool b) \/ (exists n, symbology = Num n) ->
  barcode encode value symbology height
  = Throw (Error "Symbology not supported by printer").
Proof.
  intros [-> | [-> | [[b ->] | [n ->]]]]; try reflexivity.
  - destruct b; reflexivity.
  - unfold barcode, get. cbn [to_key].
    rewrite symbologies_number, object_prototype_number. reflexivity.
Qed.

(** X4: whenever [barcode] returns, for whatever symbology passed the test,
    the sequence has 7 elements more than the text has bytes, begins with
    [0x1b 0x62], carries the height as passed at index 5 and ends with
    [0x1e]. *)
Theorem barcode_returned_shape (value : string) (symbology height : val) (out : array) :
  barcode encode value symbology height = Return out ->
  List.length out = (7 + List.length (encode value "ascii"))%nat
  /\ take 2 out = [Num 0x1b; Num 0x62]
  /\ out !! 5%nat = Some height
  /\ last out = Some (Num 0x1e).
Proof.
  intros H. apply barcode_returned in H as [_ ->].
  split; [| split; [reflexivity | split; [reflexivity |]]].
  - cbn [app List.length]. rewrite length_app. unfold literal.
    rewrite length_map. simpl. lia.
  - rewrite !app_assoc. apply last_snoc.
Qed.

(** X5: with an encoder that yields bytes, a sequence returned for a name is
    made of bytes only exactly when the name is a key of the table and the
    height is a byte; a sequence returned for an inherited name is never
    made of bytes only. *)
Theorem barcode_bytes_iff (value name : string) (height : val) (out : array) :
  Forall uint8 (encode value "ascii") ->
  barcode encode value (Str name) height = Return out ->
  (Forall is_byte out <-> is_Some (symbologies !! name) /\ is_byte height).
Proof.
  intros Henc H. apply barcode_returned in H as [Hdef ->].
  assert (Hpayload : Forall is_byte (literal (encode value "ascii"))).
  { unfold literal. apply Forall_fmap. eapply Forall_impl; [exact Henc |].
    intros v Hv. exists v. split; [reflexivity | exact Hv]. }
  assert (Hnum : forall n, 0 <= n <= 255 -> is_byte (Num n)).
  { intros n Hn. exists n. split; [reflexivity | exact Hn]. }
  unfold get in *. cbn [to_key] in *.
  destruct (symbologies !! name) as [c |] eqn:Hown.
  - destruct (symbologies_codes name c Hown) as (n & -> & Hn).
    split.
    + intros Hall. split; [eauto |].
      apply Forall_app in Hall as [Hhead _].
      do 5 (apply Forall_cons in Hhead as [_ Hhead]).
      apply Forall_cons in Hhead as [Hheight _]. exact Hheight.
    + intros [_ Hheight].
      apply Forall_app. split.
      * repeat (apply Forall_cons; split; [first [exact Hheight | apply Hnum; lia] |]).
        apply Forall_nil_2.
      * apply Forall_app. split; [exact Hpayload |].
        apply Forall_cons. split; [apply Hnum; lia | apply Forall_nil_2].
  - destruct (object_prototype !! name) as [v |] eqn:Hproto.
    + destruct (object_prototype_lookup _ _ Hproto) as [-> _].
      cbn [default from_option id].
      split.
      * intros Hall. apply Forall_app in Hall as [Hhead _].
        apply Forall_cons in Hhead as [_ Hhead].
        apply Forall_cons in Hhead as [_ Hhead].
        apply Forall_cons in Hhead as [[n [Hn _]] _]. discriminate Hn.
      * intros [[x Hx] _]. discriminate Hx.
    + exfalso. apply Hdef. reflexivity.
Qed.

End BarcodeMore.

(** ** [qrcode] *)

Section QrcodeMore.

Variable encode : string -> string -> list Z.

(** The sequence [qrcode] returns when the three checks pass. *)
Lemma qrcode_returned (value : string) (model size errorlevel : val) (out : array) :
  qrcode encode value model size errorlevel = Return out ->
  let payload := encode value "iso8859-1" in
  let length := Z.of_nat (List.length payload) in
  exists m n e : val,
    out = model_command m ++ size_command n ++ level_command e
          ++ store_command (length mod 256) (length / 256 mod 256) payload
          ++ print_command.
Proof.
  rewrite qrcode_checks. intros H payload length.
  destruct (has_property models _); [| discriminate H]. cbn [negb] in H.
  destruct (if String.eqb (typeof size) "undefined" then Num 6 else size)
    as [| | b | n | s | name]; try discriminate H.
  destruct ((n <? 1) || (n >? 8)); [discriminate H |].
  destruct (has_property errorlevels _); [| discriminate H]. cbn [negb] in H.
  injection H as <-. eauto.
Qed.

(** X6: the model is checked first: a model that is [null], a boolean or a
    number other than 1 and 2 makes [qrcode] throw the model error, whatever
    the size and the error level are. *)
Theorem qrcode_model_checked_first (value : string) (model size errorlevel : val) :
  model = Null \/ (exists b, model = Bool b)
  \/ (exists n, model = Num n /\ n <> 1 /\ n <> 2) ->
  qrcode encode value model size errorlevel = Throw (Error "Model must be 1 or 2").
Proof.
  intros [-> | [[b ->] | (n & -> & H1 & H2)]].
  - rewrite qrcode_checks. reflexivity.
  - rewrite qrcode_checks. destruct b; reflexivity.
  - apply qrcode_model_refused; assumption.
Qed.

(** X7: with a model that passes, a size that is given and is wrong is
    reported before the error level is looked at: a number outside 1..8
    with the range message, anything that is no number (a numeric string
    too) with the type message. *)
Theorem qrcode_size_messages (value : string) (model size errorlevel : val) :
  model = Undefined \/ model = Num 1 \/ model = Num 2 ->
  typeof size <> "undefined" ->
  (forall n, size = Num n -> n < 1 \/ 8 < n) ->
  qrcode encode value model size errorlevel
  = Throw (Error (if String.eqb (typeof size) "number"
                  then "Size must be between 1 and 8"
                  else "Size must be a number")).
Proof.
  intros Hm Hdef Hbad. rewrite qrcode_checks.
  assert (Hmodel : has_property models
                     (if String.eqb (typeof model) "undefined" then Num 2 else model)
                   = true)
    by (destruct Hm as [-> | [-> | ->]]; reflexivity).
  rewrite Hmodel. cbn [negb].
  destruct size as [| | b | n | s | name]; cbn [typeof] in *;
    try contradiction; try reflexivity.
  - cbn [String.eqb Ascii.eqb Bool.eqb].
    destruct (Hbad n eq_refl) as [Hlo | Hhi].
    + destruct (Z.ltb_spec n 1); [reflexivity | lia].
    + destruct (Z.ltb_spec n 1); [reflexivity |].
      destruct (Z.gtb_spec n 8); [reflexivity | lia].
  - destruct (String.eqb name "__proto__"); reflexivity.
Qed.

(** X8: the model is looked up by its property key and its type is never
    tested: the strings ['1'] and ['2'] are taken for the numbers 1 and 2,
    with the same outcome for every size and error level. *)
Theorem qrcode_string_model (value : string) (size errorlevel : val) :
  qrcode encode value (Str "1") size errorlevel
  = qrcode encode value (Num 1) size errorlevel
  /\ qrcode encode value (Str "2") size errorlevel
     = qrcode encode value (Num 2) size errorlevel.
Proof.
  split; rewrite !qrcode_checks; reflexivity.
Qed.

(** X9: whenever [qrcode] returns, the sequence has 30 elements more than
    the value has bytes, begins with the head of the model sub-command and
    ends with the print sub-command. *)
Theorem qrcode_returned_shape
  (value : string) (model size errorlevel : val) (out : array) :
  qrcode encode value model size errorlevel = Return out ->
  let payload := encode value "iso8859-1" in
  List.length out = (30 + List.length payload)%nat
  /\ take 5 out = literal [0x1b; 0x1d; 0x79; 0x53; 0x30]
  /\ drop (26 + List.length payload) out = print_command.
Proof.
  intros H payload. apply qrcode_returned in H as (m & n & e & ->).
  fold payload. unfold store_command.
  split; [| split; [reflexivity |]].
  - unfold literal. rewrite !length_app, !length_map. simpl. lia.
  - cbn [model_command size_command level_command literal map app].
    rewrite <- drop_drop. cbn [drop].
    rewrite <- (length_map Num payload). apply drop_app_length.
Qed.

(** X10: in a returned sequence the payload starts at index 26, after a
    zero byte and two length bytes; for a payload of fewer than 65536 bytes
    the two bytes, low byte first, give its exact length. *)
Theorem qrcode_payload_framing
  (value : string) (model size errorlevel : val) (out : array) :
  qrcode encode value model size errorlevel = Return out ->
  Z.of_nat (List.length (encode value "iso8859-1")) < 65536 ->
  let payload := encode value "iso8859-1" in
  out !! 23%nat = Some (Num 0)
  /\ (exists lo hi : Z,
        out !! 24%nat = Some (Num lo) /\ out !! 25%nat = Some (Num hi)
        /\ 0 <= lo < 256 /\ 0 <= hi < 256
        /\ lo + 256 * hi = Z.of_nat (List.length payload))
  /\ take (List.length payload) (drop 26 out) = literal payload.
Proof.
  intros H Hlen payload. apply qrcode_returned in H as (m & n & e & ->).
  fold payload in Hlen |- *. set (len := Z.of_nat (List.length payload)) in *.
  split; [reflexivity |]. split.
  - exists (len mod 256), (len / 256 mod 256).
    split; [reflexivity |]. split; [reflexivity |].
    split; [apply Z.mod_pos_bound; lia |].
    split; [apply Z.mod_pos_bound; lia |].
    rewrite little_endian_16. apply Z.mod_small. lia.
  - unfold store_command.
    cbn [model_command size_command level_command literal map app drop].
    rewrite <- (length_map Num payload). apply take_app_length.
Qed.

End QrcodeMore.

(** ** [image] *)

(** X11: the column is not compared with the width: column [x + width] of
    row [y] is read from the same place as column [x] of row [y + 1]. *)
Theorem getPixel_wraps_row (image0 : ImageData) (width x y : Z) :
  getPixel image0 width (x + width) y = getPixel image0 width x (y + 1).
Proof.
  unfold getPixel.
  replace ((width * y + (x + width)) * 4) with ((width * (y + 1) + x) * 4) by lia.
  reflexivity.
Qed.

(** X12: the height only sets the number of bands, the rows are read from
    the buffer whatever it is: two heights with as many bands begun give the
    same outcome, for every width and both modes. *)
Theorem image_height_bands (image0 : ImageData) (width height height' : Z)
  (mode mode' : val) :
  (height + 23) / 24 = (height' + 23) / 24 ->
  image image0 width height mode = image image0 width height' mode'.
Proof.
  intros H. rewrite !image_rounds, H. reflexivity.
Qed.




Lemma spec_packed_ext (a b : ImageData) (width x y : Z) :
  (forall x y, getPixel a width x y = getPixel b width x y) ->
  spec_packed a width x y = spec_packed b width x y.
Proof.
  intros H. unfold spec_packed. rewrite !H. reflexivity.
Qed.

(** X14: only the first element of each quadruple of the buffer is looked
    at, and only whether it is missing or positive: two buffers that agree
    on this at every index [4 * k] give the same outcome. *)
Theorem image_first_channel_only (a b : ImageData) (width height : Z) (mode : val) :
  (forall k, blank (element (data a) (k * 4)) = blank (element (data b) (k * 4))) ->
  image a width height mode = image b width height mode.
Proof.
  intros H.
  assert (Hpix : forall x y, getPixel a width x y = getPixel b width x y).
  { intros x y. unfold getPixel. fold (blank (element (data a) ((width * y + x) * 4))).
    fold (blank (element (data b) ((width * y + x) * 4))). rewrite H. reflexivity. }
  destruct (Z.le_gt_cases 0 width) as [Hw | Hw].
  - assert (Hcol : forall y x, spec_column a width y x = spec_column b width y x).
    { intros y x. unfold spec_column.
      rewrite !(spec_packed_ext a b) by exact Hpix. reflexivity. }
    assert (Hband : forall s, spec_band a width s = spec_band b width s).
    { intros s. unfold spec_band.
      rewrite (List.map_ext _ _ (Hcol (s * 24))). reflexivity. }
    rewrite !image_returns by exact Hw.
    rewrite (List.map_ext _ _ Hband). reflexivity.
  - destruct (Z.le_gt_cases height 0) as [Hh | Hh].
    + rewrite !image_no_rows by exact Hh. reflexivity.
    + rewrite !image_throws by lia. reflexivity.
Qed.

(** Every element of a sequence returned by [image] is a byte. *)
Lemma image_all_bytes (image0 : ImageData) (width height : Z) (mode : val) (out : array) :
  image image0 width height mode = Return out -> Forall is_byte out.
Proof.
  assert (Hnum : forall n, 0 <= n <= 255 -> is_byte (Num n)).
  { intros n Hn. exists n. split; [reflexivity | exact Hn]. }
  assert (Hlit : forall ns, Forall uint8 ns -> Forall is_byte (literal ns)).
  { intros ns Hns. unfold literal. apply Forall_fmap. eapply Forall_impl; [exact Hns |].
    intros v Hv. apply Hnum. exact Hv. }
  assert (Hfixed : forall ns, forallb (fun n => (0 <=? n) && (n <=? 255)) ns = true ->
                              Forall is_byte (literal ns)).
  { intros ns Hns. apply Hlit. apply Forall_forall. intros n Hn.
    rewrite forallb_forall in Hns. apply list_elem_of_In in Hn.
    specialize (Hns n Hn). unfold uint8. lia. }
  intros H. destruct (Z.le_gt_cases 0 width) as [Hw | Hw].
  - rewrite image_returns in H by exact Hw.
    assert (Hout : out = literal [0x1b; 0x30]
                         ++ concat (map (spec_band image0 width) (spec_bands height))
                         ++ literal [0x1b; 0x7a; 0x01]) by congruence.
    rewrite Hout. clear H Hout.
    apply Forall_app_2; [apply Hfixed; reflexivity |].
    apply Forall_app_2; [| apply Hfixed; reflexivity].
    apply Forall_concat. apply Forall_forall. intros band Hband.
    apply list_elem_of_In, in_map_iff in Hband as (s & <- & _).
    unfold spec_band.
    pose proof (Z.mod_pos_bound width 256 ltac:(lia)).
    pose proof (Z.mod_pos_bound (width / 256) 256 ltac:(lia)).
    apply Forall_app_2; [apply Hlit; repeat constructor; unfold uint8; lia |].
    apply Forall_app_2; [| apply Hfixed; reflexivity].
    apply Hlit. apply Forall_concat. apply Forall_forall. intros col Hcol.
    apply list_elem_of_In, in_map_iff in Hcol as (x & <- & _).
    unfold spec_column.
    pose proof (spec_packed_range image0 width x (s * 24)).
    pose proof (spec_packed_range image0 width x (s * 24 + 8)).
    pose proof (spec_packed_range image0 width x (s * 24 + 16)).
    repeat constructor; unfold uint8; lia.
  - destruct (Z.le_gt_cases height 0) as [Hh | Hh].
    + rewrite image_no_rows in H by exact Hh.
      assert (Hout : out = literal [0x1b; 0x30; 0x1b; 0x7a; 0x01]) by congruence.
      rewrite Hout. apply Hfixed. reflexivity.
    + rewrite image_throws in H by lia. discriminate H.
Qed.

(** ** [pulse] and [size] *)

Lemma pulse_elements (device on off : option Z) :
  pulse device on off
  = literal [0x1b; 0x07;
             Z.min 127 ((default 200 on + 5) / 10) mod 256;
             Z.min 127 ((default 200 off + 5) / 10) mod 256;
             if truthy (Num (default 0 device)) then 0x1a else 0x07].
Proof.
  unfold pulse. rewrite !bit_and_0xff, !math_round_tenth. reflexivity.
Qed.

(** X15: a time that is not negative saturates from 1265 on: its byte is 127
    exactly when the time is at least 1265, for the ON and for the OFF
    time. *)
Theorem pulse_saturation (device : option Z) (on off : Z) :
  0 <= on -> 0 <= off ->
  (pulse device (Some on) (Some off) !! 2%nat = Some (Num 127) <-> 1265 <= on)
  /\ (pulse device (Some on) (Some off) !! 3%nat = Some (Num 127) <-> 1265 <= off).
Proof.
  intros Hon Hoff. rewrite pulse_elements. cbn [default literal map lookup list_lookup].
  assert (Hsat : forall t, 0 <= t ->
            (Some (Num (Z.min 127 ((t + 5) / 10) mod 256)) = Some (Num 127) <-> 1265 <= t)).
  { intros t Ht.
    pose proof (Z.div_mod (t + 5) 10 ltac:(lia)).
    pose proof (Z.mod_pos_bound (t + 5) 10 ltac:(lia)).
    rewrite Z.mod_small by lia.
    split; [intros [= Heq] | intros Hge; do 2 f_equal]; lia. }
  split; apply Hsat; assumption.
Qed.

(** X16: there is no lower cap: a negative ON time from -1285 to -6 rounds
    to an [r] of -128..-1 and is sent as the byte [256 + r], which is above
    127. *)
Theorem pulse_negative_time (device off : option Z) (on : Z) :
  -1285 <= on < -5 ->
  exists r : Z,
    -128 <= r <= -1 /\ 10 * r - 5 <= on < 10 * r + 5
    /\ pulse device (Some on) off !! 2%nat = Some (Num (256 + r)).
Proof.
  intros Hon. exists ((on + 5) / 10).
  pose proof (Z.div_mod (on + 5) 10 ltac:(lia)).
  pose proof (Z.mod_pos_bound (on + 5) 10 ltac:(lia)).
  split; [lia |]. split; [lia |].
  assert (Hbyte : Z.min 127 ((on + 5) / 10) mod 256 = 256 + (on + 5) / 10).
  { rewrite Z.min_r by lia. symmetry. apply Z.mod_unique with (q := -1); lia. }
  rewrite pulse_elements. change (default 200 (Some on)) with on.
  rewrite Hbyte. reflexivity.
Qed.

(** X17: [size] yields bytes only for multipliers from 1 to 256: nothing
    brings a width or height outside this range back into a byte. *)
Theorem size_bytes_iff (width height : Z) :
  Forall is_byte (size width height) <-> 1 <= width <= 256 /\ 1 <= height <= 256.
Proof.
  unfold size, literal. cbn [map]. split.
  - intros H.
    apply Forall_cons in H as [_ H1]. apply Forall_cons in H1 as [_ H2].
    apply Forall_cons in H2 as [(h & [= <-] & Hh) H3].
    apply Forall_cons in H3 as [(w & [= <-] & Hw) _]. lia.
  - intros [Hw Hh].
    repeat (apply Forall_cons; split; [eexists; split; [reflexivity | lia] |]).
    apply Forall_nil_2.
Qed.

(** ** [font], [align], [cut] and the toggles *)

(** X18: [font] falls back to font A for everything but the strings ['B']
    and ['C'] (other letters, lower case, values that are no string): the
    result is that of ['A'] exactly when the type is neither. *)
Theorem font_fallback_iff (type : val) :
  font (Str "A") = literal [0x1b; 0x1e; 0x46; 0x00]
  /\ (font type = font (Str "A") <-> type <> Str "B" /\ type <> Str "C").
Proof.
  split; [reflexivity |]. unfold font, strict_eq.
  destruct (decide (type = Str "C")) as [-> | HC].
  { split; [discriminate | intros [_ H]; contradiction]. }
  destruct (decide (type = Str "B")) as [-> | HB].
  { split; [discriminate | intros [H _]; contradiction]. }
  rewrite !bool_decide_eq_false_2 by assumption.
  split; [intros _; split; assumption | reflexivity].
Qed.

(** X19: [align] falls back to left for everything but the strings
    ['center'] and ['right']. *)
Theorem align_fallback_iff (value : val) :
  align (Str "left") = literal [0x1b; 0x1d; 0x61; 0x00]
  /\ (align value = align (Str "left")
      <-> value <> Str "center" /\ value <> Str "right").
Proof.
  split; [reflexivity |]. unfold align, strict_eq.
  destruct (decide (value = Str "center")) as [-> | HC].
  { split; [discriminate | intros [H _]; contradiction]. }
  destruct (decide (value = Str "right")) as [-> | HR].
  { split; [discriminate | intros [_ H]; contradiction]. }
  rewrite !bool_decide_eq_false_2 by assumption.
  split; [intros _; split; assumption | reflexivity].
Qed.

(** X20: for an argument that is no object (omitted, [null], a boolean, a
    number or a string), [cut] asks for a partial cut for the string
    ['partial'] only and for the full cut in every other case. *)
Theorem cut_partial_iff (value : val) :
  primitive value ->
  (cut value = literal [0x1b; 0x64; 0x01] <-> value = Str "partial")
  /\ (cut value = literal [0x1b; 0x64; 0x00] <-> value <> Str "partial").
Proof.
  intros Hprimitive. unfold cut, loose_eq_name.
  destruct value as [| | b | n | s | name];
    [ | | | | | exfalso; apply (Hprimitive name); reflexivity ];
    try (split; split; [discriminate | discriminate | discriminate | reflexivity]).
  destruct (String.eqb_spec s "partial") as [-> | Hne].
  - split; split.
    + reflexivity.
    + reflexivity.
    + discriminate.
    + intros H. exfalso. apply H. reflexivity.
  - split; split.
    + discriminate.
    + intros [= ->]. contradiction.
    + intros _ [= ->]. contradiction.
    + reflexivity.
Qed.

(** X21: [bold], [underline] and [invert] see their argument through its
    truthiness only: two arguments give the same sequence exactly when both
    are truthy or both are falsy. *)
Theorem toggles_truthiness (v w : val) :
  (bold v = bold w <-> truthy v = truthy w)
  /\ (underline v = underline w <-> truthy v = truthy w)
  /\ (invert v = invert w <-> truthy v = truthy w).
Proof.
  unfold bold, underline, invert.
  destruct (truthy v), (truthy w);
    repeat split; first [reflexivity | discriminate].
Qed.

(** ** All calls *)

Lemma literal_bytes (ns : list Z) :
  forallb (fun n => (0 <=? n) && (n <=? 255)) ns = true -> Forall is_byte (literal ns).
Proof.
  intros Hns. unfold literal. apply Forall_fmap. apply Forall_forall. intros n Hn.
  rewrite forallb_forall in Hns. apply list_elem_of_In in Hn.
  specialize (Hns n Hn). exists n. split; [reflexivity | lia].
Qed.

Lemma pulse_all_bytes (device on off : option Z) : Forall is_byte (pulse device on off).
Proof.
  rewrite pulse_elements. unfold literal. cbn [map].
  pose proof (Z.mod_pos_bound (Z.min 127 ((default 200 on + 5) / 10)) 256 ltac:(lia)).
  pose proof (Z.mod_pos_bound (Z.min 127 ((default 200 off + 5) / 10)) 256 ltac:(lia)).
  repeat (apply Forall_cons; split;
          [eexists; split; [reflexivity |]; try lia;
           destruct (truthy _); lia |]).
  apply Forall_nil_2.
Qed.

Section CallsMore.

Variable encode : string -> string -> list Z.

(** X22: every sequence that a call returns begins with the escape byte
    [0x1b], except the empty sequence, which only [italic] returns. *)
Theorem escape_prefix (c : call) (out : array) :
  perform encode c = Return out ->
  (exists value, c = Italic value) /\ out = []
  \/ (forall value, c <> Italic value) /\ exists rest, out = Num 0x1b :: rest.
Proof.
  destruct c as [| type | value | value symbology height | value model size errorlevel
                 | image0 width height mode | value | device on off | value | value
                 | value | value | width height | value |];
    cbn [perform]; intros H;
    try (right; split; [discriminate |]; injection H as <-; eexists; reflexivity).
  - right. split; [discriminate |].
    apply barcode_returned in H as [_ ->]. eexists. reflexivity.
  - right. split; [discriminate |].
    apply qrcode_returned in H as (m & n & e & ->). eexists. reflexivity.
  - right. split; [discriminate |].
    destruct (Z.le_gt_cases 0 width) as [Hw | Hw].
    + rewrite image_returns in H by exact Hw. injection H as <-. eexists. reflexivity.
    + destruct (Z.le_gt_cases height 0) as [Hh | Hh].
      * rewrite image_no_rows in H by exact Hh. injection H as <-. eexists. reflexivity.
      * rewrite image_throws in H by lia. discriminate H.
  - left. split; [eauto |]. injection H as <-. reflexivity.
Qed.

(** X23: the calls that take no byte from their caller ([initialize],
    [font], [align], [image], [cut], [pulse], [bold], [underline],
    [italic], [invert], [flush]) return bytes only, whatever their arguments
    are. *)
Theorem plain_calls_yield_bytes (c : call) (out : array) :
  plain c = true ->
  perform encode c = Return out ->
  Forall is_byte out.
Proof.
  destruct c as [| type | value | value symbology height | value model size errorlevel
                 | image0 width height mode | value | device on off | value | value
                 | value | value | width height | value |];
    cbn [plain perform]; intros Hplain H; try discriminate Hplain.
  - injection H as <-. apply literal_bytes. reflexivity.
  - injection H as <-. unfold font.
    destruct (strict_eq type (Str "B")), (strict_eq type (Str "C"));
      apply literal_bytes; reflexivity.
  - injection H as <-. unfold align.
    destruct (strict_eq value (Str "center")), (strict_eq value (Str "right"));
      apply literal_bytes; reflexivity.
  - eapply image_all_bytes. exact H.
  - injection H as <-. unfold cut.
    destruct (loose_eq_name value "partial"); apply literal_bytes; reflexivity.
  - injection H as <-. apply pulse_all_bytes.
  - injection H as <-. unfold bold.
    destruct (truthy value); apply literal_bytes; reflexivity.
  - injection H as <-. unfold underline.
    destruct (truthy value); apply literal_bytes; reflexivity.
  - injection H as <-. apply Forall_nil_2.
  - injection H as <-. unfold invert.
    destruct (truthy value); apply literal_bytes; reflexivity.
  - injection H as <-. apply literal_bytes. reflexivity.
Qed.

End CallsMore.

(** ** More on [image], [qrcode] and [codepage] *)


Lemma concat_constant {A B} (l : list A) (b : list B) :
  concat (map (fun _ => b) l) = concat (replicate (List.length l) b).
Proof.
  induction l as [| a l IH]; simpl; [reflexivity |]. rewrite IH. reflexivity.
Qed.

(** X25: with an empty buffer every pixel is outside, so for a width that is
    not negative every band is the same: its head, three zero bytes for
    every column and the pair [0x0a 0x0d]. *)
Theorem image_empty_buffer (width height : Z) (mode : val) :
  0 <= width ->
  image {| data := [] |} width height mode
  = Return (literal [0x1b; 0x30]
            ++ concat (replicate (Z.to_nat ((height + 23) / 24))
                         (literal [0x1b; 0x58; width mod 256; width / 256 mod 256]
                          ++ literal (concat (replicate (Z.to_nat width) [0; 0; 0]))
                          ++ literal [0x0a; 0x0d]))
            ++ literal [0x1b; 0x7a; 0x01]).
Proof.
  intros Hw. rewrite image_returns by exact Hw.
  assert (Hpix : forall x y, getPixel {| data := [] |} width x y = 0).
  { intros x y. unfold getPixel, element. cbn [data].
    destruct (_ <? 0); reflexivity. }
  assert (Hcol : forall y x, spec_column {| data := [] |} width y x = [0; 0; 0]).
  { intros y x. unfold spec_column, spec_packed. rewrite !Hpix. reflexivity. }
  assert (Hband : forall s,
            spec_band {| data := [] |} width s
            = literal [0x1b; 0x58; width mod 256; width / 256 mod 256]
              ++ literal (concat (replicate (Z.to_nat width) [0; 0; 0]))
              ++ literal [0x0a; 0x0d]).
  { intros s. unfold spec_band.
    rewrite (List.map_ext _ _ (Hcol (s * 24))), concat_constant, length_seqZ.
    reflexivity. }
  rewrite (List.map_ext _ _ Hband), concat_constant. unfold spec_bands.
  rewrite length_seqZ. reflexivity.
Qed.

(** X26: [codepage] hands its argument on as it is: the result is made of
    bytes exactly when the argument is a byte. *)
Theorem codepage_bytes_iff (value : val) :
  codepage value !! 3%nat = Some value
  /\ (Forall is_byte (codepage value) <-> is_byte value).
Proof.
  split; [reflexivity |]. unfold codepage. split.
  - intros H. do 3 (apply Forall_cons in H as [_ H]).
    apply Forall_cons in H as [Hv _]. exact Hv.
  - intros Hv.
    repeat (apply Forall_cons; split;
            [first [exact Hv | eexists; split; [reflexivity | lia]] |]).
    apply Forall_nil_2.
Qed.

Section QrcodeLevel.

Variable encode : string -> string -> list Z.

(** X27: with the model and the size left to their defaults, [qrcode] throws
    for an error level given as a string exactly when the string is neither
    a key of the table nor a name inherited from [Object.prototype]. *)
Theorem qrcode_level_throws_iff (value level : string) :
  (qrcode encode value Undefined Undefined (Str level)
   = Throw (Error "Error level must be l, m, q or h")
   <-> errorlevels !! level = None /\ object_prototype !! level = None)
  /\ ((exists out, qrcode encode value Undefined Undefined (Str level) = Return out)
      <-> is_Some (errorlevels !! level) \/ is_Some (object_prototype !! level)).
Proof.
  rewrite qrcode_checks.
  cbn [typeof String.eqb Ascii.eqb Bool.eqb].
  change (has_property models (Num 2)) with true. cbn [negb].
  change ((6 <? 1) || (6 >? 8)) with false. cbv iota.
  unfold has_property. cbn [to_key].
  destruct (errorlevels !! level) as [c |] eqn:Hown;
    destruct (object_prototype !! level) as [v |] eqn:Hproto.
  - split; split.
    + discriminate.
    + intros [H _]. discriminate H.
    + intros _. left. eauto.
    + intros _. eexists. reflexivity.
  - split; split.
    + discriminate.
    + intros [H _]. discriminate H.
    + intros _. left. eauto.
    + intros _. eexists. reflexivity.
  - split; split.
    + discriminate.
    + intros [_ H]. discriminate H.
    + intros _. right. eauto.
    + intros _. eexists. reflexivity.
  - split; split.
    + intros _. split; reflexivity.
    + reflexivity.
    + intros [out H]. discriminate H.
    + intros [[x H] | [x H]]; discriminate H.
Qed.

End QrcodeLevel.

(** * The further properties at concrete inputs *)

(** [symbologies_injective] on the code of Code 128. *)
Lemma symbologies_injective_witness :
  symbologies !! "code128" = Some (Num 0x06) /\ "code128" = "code128".
Proof.
  assert (H : symbologies !! "code128" = Some (Num 0x06)) by reflexivity.
  split; [exact H | exact (symbologies_injective "code128" "code128" (Num 0x06) H H)].
Defined.

(** [barcode_non_string_refused] with the symbology omitted. *)
Lemma barcode_non_string_refused_witness :
  barcode char_codes "AB" Undefined Undefined
  = Throw (Error "Symbology not supported by printer").
Proof.
  apply (barcode_non_string_refused char_codes "AB" Undefined Undefined).
  left. reflexivity.
Defined.

(** [barcode_returned_shape] on an EAN-13 call. *)
Lemma barcode_returned_shape_witness :
  let out := literal [0x1b; 0x62; 0x03; 0x01; 0x03; 80; 52; 50; 0x1e] in
  barcode char_codes "42" (Str "ean13") (Num 80) = Return out
  /\ List.length out = (7 + List.length (char_codes "42" "ascii"))%nat
  /\ take 2 out = [Num 0x1b; Num 0x62]
  /\ out !! 5%nat = Some (Num 80)
  /\ last out = Some (Num 0x1e).
Proof.
  intros out.
  assert (H : barcode char_codes "42" (Str "ean13") (Num 80) = Return out)
    by reflexivity.
  split; [exact H |].
  exact (barcode_returned_shape char_codes "42" (Str "ean13") (Num 80) out H).
Defined.

(** [barcode_bytes_iff] on a call with the inherited name [valueOf]. *)
Lemma barcode_bytes_iff_witness :
  let out := [Num 0x1b; Num 0x62; Member "valueOf"; Num 0x01; Num 0x03; Num 80;
              Num 52; Num 50; Num 0x1e] in
  Forall uint8 (char_codes "42" "ascii")
  /\ barcode char_codes "42" (Str "valueOf") (Num 80) = Return out
  /\ (Forall is_byte out <-> is_Some (symbologies !! "valueOf") /\ is_byte (Num 80)).
Proof.
  intros out.
  assert (Henc : Forall uint8 (char_codes "42" "ascii"))
    by (repeat constructor; unfold uint8; simpl; lia).
  assert (H : barcode char_codes "42" (Str "valueOf") (Num 80) = Return out)
    by reflexivity.
  split; [exact Henc |]. split; [exact H |].
  exact (barcode_bytes_iff char_codes "42" "valueOf" (Num 80) out Henc H).
Defined.

(** [qrcode_model_checked_first] with model 3 and a wrong size. *)
Lemma qrcode_model_checked_first_witness :
  qrcode char_codes "TEST" (Num 3) (Num 9) (Str "x")
  = Throw (Error "Model must be 1 or 2").
Proof.
  apply (qrcode_model_checked_first char_codes "TEST" (Num 3) (Num 9) (Str "x")).
  right. right. exists 3. split; [reflexivity | split; lia].
Defined.

(** [qrcode_size_messages] with the size given as the string ['6']. *)
Lemma qrcode_size_messages_witness :
  qrcode char_codes "TEST" Undefined (Str "6") Undefined
  = Throw (Error "Size must be a number").
Proof.
  apply (qrcode_size_messages char_codes "TEST" Undefined (Str "6") Undefined).
  - left. reflexivity.
  - discriminate.
  - intros n Hn. discriminate Hn.
Defined.

(** [qrcode_returned_shape] and [qrcode_payload_framing] on the defaults. *)
Lemma qrcode_returned_shape_witness :
  exists out : array,
    qrcode char_codes "TEST" Undefined Undefined Undefined = Return out
    /\ List.length out = (30 + List.length (char_codes "TEST" "iso8859-1"))%nat
    /\ take 5 out = literal [0x1b; 0x1d; 0x79; 0x53; 0x30]
    /\ drop (26 + List.length (char_codes "TEST" "iso8859-1")) out = print_command.
Proof.
  eexists. split; [reflexivity |].
  exact (qrcode_returned_shape char_codes "TEST" Undefined Undefined Undefined _ eq_refl).
Defined.

Lemma qrcode_payload_framing_witness :
  exists out : array,
    qrcode char_codes "TEST" Undefined Undefined Undefined = Return out
    /\ Z.of_nat (List.length (char_codes "TEST" "iso8859-1")) < 65536
    /\ out !! 23%nat = Some (Num 0)
    /\ (exists lo hi : Z,
          out !! 24%nat = Some (Num lo) /\ out !! 25%nat = Some (Num hi)
          /\ 0 <= lo < 256 /\ 0 <= hi < 256
          /\ lo + 256 * hi = Z.of_nat (List.length (char_codes "TEST" "iso8859-1")))
    /\ take (List.length (char_codes "TEST" "iso8859-1")) (drop 26 out)
       = literal (char_codes "TEST" "iso8859-1").
Proof.
  assert (Hlen : Z.of_nat (List.length (char_codes "TEST" "iso8859-1")) < 65536)
    by (simpl; lia).
  eexists. split; [reflexivity |]. split; [exact Hlen |].
  exact (qrcode_payload_framing char_codes "TEST" Undefined Undefined Undefined _
           eq_refl Hlen).
Defined.

(** [image_height_bands] on the heights 1 and 24. *)
Lemma image_height_bands_witness :
  (1 + 23) / 24 = (24 + 23) / 24
  /\ image black_column 1 1 Undefined = image black_column 1 24 (Str "column").
Proof.
  assert (H : (1 + 23) / 24 = (24 + 23) / 24) by reflexivity.
  split; [exact H |].
  exact (image_height_bands black_column 1 1 24 Undefined (Str "column") H).
Defined.


(** [image_first_channel_only] on two pixels that differ in every channel
    but the first. *)
Lemma image_first_channel_only_witness :
  let a := {| data := [0; 0; 0; 255] |} in
  let b := {| data := [0; 200; 100; 0] |} in
  (forall k, blank (element (data a) (k * 4)) = blank (element (data b) (k * 4)))
  /\ image a 1 24 Undefined = image b 1 24 Undefined.
Proof.
  intros a b.
  assert (H : forall k,
             blank (element (data a) (k * 4)) = blank (element (data b) (k * 4))).
  { intros k. destruct k as [| p | p]; [reflexivity | | reflexivity].
    unfold element. simpl data.
    destruct (Z.ltb_spec (Z.pos p * 4) 0); [reflexivity |].
    rewrite !lookup_ge_None_2 by (simpl; lia). reflexivity. }
  split; [exact H | exact (image_first_channel_only a b 1 24 Undefined H)].
Defined.

(** [pulse_saturation] at 1265 and 1264. *)
Lemma pulse_saturation_witness :
  0 <= 1265 /\ 0 <= 1264
  /\ (pulse None (Some 1265) (Some 1264) !! 2%nat = Some (Num 127) <-> 1265 <= 1265)
  /\ (pulse None (Some 1265) (Some 1264) !! 3%nat = Some (Num 127) <-> 1265 <= 1264).
Proof.
  assert (H1 : 0 <= 1265) by lia. assert (H2 : 0 <= 1264) by lia.
  split; [exact H1 |]. split; [exact H2 |].
  exact (pulse_saturation None 1265 1264 H1 H2).
Defined.

(** [pulse_negative_time] at -100. *)
Lemma pulse_negative_time_witness :
  -1285 <= -100 < -5
  /\ exists r : Z,
       -128 <= r <= -1 /\ 10 * r - 5 <= -100 < 10 * r + 5
       /\ pulse None (Some (-100)) None !! 2%nat = Some (Num (256 + r)).
Proof.
  assert (H : -1285 <= -100 < -5) by lia.
  split; [exact H | exact (pulse_negative_time None None (-100) H)].
Defined.

(** [escape_prefix] and [plain_calls_yield_bytes] on a [flush] call. *)
Lemma escape_prefix_witness :
  perform char_codes Flush = Return flush
  /\ ((exists value, Flush = Italic value) /\ flush = []
      \/ (forall value, Flush <> Italic value) /\ exists rest, flush = Num 0x1b :: rest).
Proof.
  split; [reflexivity | exact (escape_prefix char_codes Flush flush eq_refl)].
Defined.

Lemma plain_calls_yield_bytes_witness :
  plain (Pulse None (Some (-100)) None) = true
  /\ perform char_codes (Pulse None (Some (-100)) None)
     = Return (pulse None (Some (-100)) None)
  /\ Forall is_byte (pulse None (Some (-100)) None).
Proof.
  split; [reflexivity |]. split; [reflexivity |].
  exact (plain_calls_yield_bytes char_codes (Pulse None (Some (-100)) None) _
           eq_refl eq_refl).
Defined.


(** [image_empty_buffer] on a 2 x 30 call. *)
Lemma image_empty_buffer_witness :
  0 <= 2
  /\ image {| data := [] |} 2 30 Undefined
     = Return (literal [0x1b; 0x30;
                        0x1b; 0x58; 2; 0; 0; 0; 0; 0; 0; 0; 0x0a; 0x0d;
                        0x1b; 0x58; 2; 0; 0; 0; 0; 0; 0; 0; 0x0a; 0x0d;
                        0x1b; 0x7a; 0x01]).
Proof.
  assert (H : 0 <= 2) by lia.
  split; [exact H | exact (image_empty_buffer 2 30 Undefined H)].
Defined.

(** [cut_partial_iff] on an omitted argument. *)
Lemma cut_partial_iff_witness :
  primitive Undefined
  /\ (cut Undefined = literal [0x1b; 0x64; 0x01] <-> Undefined = Str "partial")
  /\ (cut Undefined = literal [0x1b; 0x64; 0x00] <-> Undefined <> Str "partial").
Proof.
  assert (H : primitive Undefined) by (intros name; discriminate).
  split; [exact H | exact (cut_partial_iff Undefined H)].
Defined.

(** [calls_are_pure] on an [image] call whose buffer is the one object of
    the heap. *)
Lemma calls_are_pure_witness :
  let h := [Heap.Uint8Array (data black_column)] in
  let c := Heap.Image 0 1 24 Undefined in
  valid h c
  /\ (exists made : Heap.heap, snd (Heap.invoke char_codes c h) = h ++ made)
  /\ observe (Heap.invoke char_codes c h)
     = Return (literal [0x1b; 0x30;
                        0x1b; 0x58; 1; 0; 0xff; 0xff; 0xff; 0x0a; 0x0d;
                        0x1b; 0x7a; 0x01])
  /\ observe (Heap.invoke char_codes c (snd (Heap.invoke char_codes c h)))
     = observe (Heap.invoke char_codes c h).
Proof.
  intros h c.
  assert (H : valid h c) by (unfold valid, h, c; simpl; lia).
  pose proof (calls_are_pure char_codes c h H) as (Hframe & Hobs & _ & Htwice & _).
  split; [exact H |]. split; [exact Hframe |]. split; [exact Hobs | exact Htwice].
Defined.
